(** * mistertango/client.py: the signed request pipeline

    A shallow embedding of [Mistertango] (src/mistertango/client.py): the
    nonce, the signature, the headers, the form-encoded body, the POST and
    the classification of the response.  Python values are modelled as the
    interpreter has them: a [str] is a sequence of code points, [bytes] a
    sequence of octets, a [dict] an insertion-ordered association list, a
    [float] an IEEE 754 binary64 number. *)

From Stdlib Require Import String Ascii ZArith List Bool Lia.
From Stdlib Require Import DecimalString DecimalZ DecimalPos.
From Stdlib Require Import QArith Qround Qabs Qpower Lqa.
From Stdlib Require Import Floats.
Import ListNotations.
Local Open Scope Z_scope.

(** ** Text and octets *)

(** A Python [str]: its code points. *)
Definition str := list Z.

(** A Python [bytes] object: octets, each in 0..255. *)
Definition bytes := list Z.

Definition ord (a : ascii) : Z := Z.of_N (N_of_ascii a).

(** The [str] a source literal denotes. *)
Definition lit (s : string) : str := map ord (list_ascii_of_string s).

Fixpoint str_eqb (a b : str) : bool :=
  match a, b with
  | [], [] => true
  | x :: a', y :: b' => (x =? y) && str_eqb a' b'
  | _, _ => false
  end.

(** [old in s] for a one-character [old]. *)
Definition contains (old : Z) (s : str) : bool := existsb (Z.eqb old) s.

(** [s.replace(old, new)] for a one-character [old]. *)
Definition replace (old : Z) (new : str) (s : str) : str :=
  flat_map (fun c => if c =? old then new else [c]) s.

(** [sep.join(l)] *)
Fixpoint join (sep : str) (l : list str) : str :=
  match l with
  | [] => []
  | [x] => x
  | x :: rest => x ++ sep ++ join sep rest
  end.

(** ** Exceptions *)

Inductive exn : Type :=
| UnicodeEncodeError
| UnicodeDecodeError
| AttributeError (msg : str)
| PaymentException (msg : str)
| JSONDecodeError (msg : str)
| RequestException (msg : str).

Inductive result (A : Type) : Type :=
| Ok (a : A)
| Raise (e : exn).
Arguments Ok {A} a.
Arguments Raise {A} e.

Definition rbind {A B} (r : result A) (k : A -> result B) : result B :=
  match r with
  | Ok a => k a
  | Raise e => Raise e
  end.

(** ** [str.encode()] and [bytes.decode()]: strict UTF-8 *)

Definition is_surrogate (c : Z) : bool := (0xD800 <=? c) && (c <=? 0xDFFF).

Definition cont (x : Z) : Z := Z.lor 0x80 (Z.land x 0x3F).

Definition encode_char (c : Z) : option bytes :=
  if c <? 0 then None
  else if c <? 0x80 then Some [c]
  else if c <? 0x800 then Some [Z.lor 0xC0 (Z.shiftr c 6); cont c]
  else if is_surrogate c then None
  else if c <? 0x10000 then
    Some [Z.lor 0xE0 (Z.shiftr c 12); cont (Z.shiftr c 6); cont c]
  else if c <? 0x110000 then
    Some [Z.lor 0xF0 (Z.shiftr c 18); cont (Z.shiftr c 12);
          cont (Z.shiftr c 6); cont c]
  else None.

(** [s.encode()]: a lone surrogate has no UTF-8 form. *)
Fixpoint encode (s : str) : result bytes :=
  match s with
  | [] => Ok []
  | c :: s' =>
      match encode_char c with
      | None => Raise UnicodeEncodeError
      | Some bs => rbind (encode s') (fun rest => Ok (bs ++ rest))
      end
  end.

Definition is_cont (b : Z) : bool := (0x80 <=? b) && (b <=? 0xBF).

Definition low6 (b : Z) : Z := Z.land b 0x3F.

(** [bs.decode()]: overlong forms, surrogates and values past U+10FFFF are
    refused. *)
Fixpoint decode (bs : bytes) : result str :=
  match bs with
  | [] => Ok []
  | b :: r1 =>
      if (0 <=? b) && (b <? 0x80) then
        rbind (decode r1) (fun s => Ok (b :: s))
      else if (0xC2 <=? b) && (b <=? 0xDF) then
        match r1 with
        | b1 :: r2 =>
            if is_cont b1 then
              rbind (decode r2) (fun s =>
                Ok (Z.lor (Z.shiftl (Z.land b 0x1F) 6) (low6 b1) :: s))
            else Raise UnicodeDecodeError
        | _ => Raise UnicodeDecodeError
        end
      else if (0xE0 <=? b) && (b <=? 0xEF) then
        match r1 with
        | b1 :: b2 :: r3 =>
            let c := Z.lor (Z.shiftl (Z.land b 0x0F) 12)
                       (Z.lor (Z.shiftl (low6 b1) 6) (low6 b2)) in
            if is_cont b1 && is_cont b2 && (0x800 <=? c) && negb (is_surrogate c)
            then rbind (decode r3) (fun s => Ok (c :: s))
            else Raise UnicodeDecodeError
        | _ => Raise UnicodeDecodeError
        end
      else if (0xF0 <=? b) && (b <=? 0xF4) then
        match r1 with
        | b1 :: b2 :: b3 :: r4 =>
            let c := Z.lor (Z.shiftl (Z.land b 0x07) 18)
                       (Z.lor (Z.shiftl (low6 b1) 12)
                          (Z.lor (Z.shiftl (low6 b2) 6) (low6 b3))) in
            if is_cont b1 && is_cont b2 && is_cont b3
               && (0x10000 <=? c) && (c <? 0x110000)
            then rbind (decode r4) (fun s => Ok (c :: s))
            else Raise UnicodeDecodeError
        | _ => Raise UnicodeDecodeError
        end
      else Raise UnicodeDecodeError
  end.

(** ** [base64.b64encode] (RFC 4648, standard alphabet, padded) *)

Definition b64_alphabet : bytes :=
  lit "ABCDEFGHIJKLMNOPQRSTUVWXYZabcdefghijklmnopqrstuvwxyz0123456789+/".

Definition b64_pad : Z := 61.

Definition b64_char (i : Z) : Z := nth (Z.to_nat i) b64_alphabet b64_pad.

Fixpoint b64encode (bs : bytes) : bytes :=
  match bs with
  | [] => []
  | [a] =>
      [b64_char (Z.shiftr a 2); b64_char (Z.shiftl (Z.land a 3) 4);
       b64_pad; b64_pad]
  | [a; b] =>
      [b64_char (Z.shiftr a 2);
       b64_char (Z.lor (Z.shiftl (Z.land a 3) 4) (Z.shiftr b 4));
       b64_char (Z.shiftl (Z.land b 15) 2); b64_pad]
  | a :: b :: c :: rest =>
      b64_char (Z.shiftr a 2)
      :: b64_char (Z.lor (Z.shiftl (Z.land a 3) 4) (Z.shiftr b 4))
      :: b64_char (Z.lor (Z.shiftl (Z.land b 15) 2) (Z.shiftr c 6))
      :: b64_char (Z.land c 63)
      :: b64encode rest
  end.

(** ** [hashlib.sha256] and [hashlib.sha512] (FIPS 180-4) *)

Module SHA2.

(** The constants are the leading bits of the fractional parts of the
    square and cube roots of the first primes. *)
Fixpoint upto (n : nat) (from : Z) : list Z :=
  match n with
  | O => []
  | S n' => from :: upto n' (from + 1)
  end.

(** Below 23 * 23 a number with no proper divisor under 23 is prime. *)
Definition is_prime (n : Z) : bool :=
  forallb (fun d => (n <=? d) || negb (n mod d =? 0)) (upto 21 2).

Definition primes (n : nat) : list Z :=
  firstn n (filter is_prime (upto 420 2)).

Fixpoint cbrt_bits (bit : nat) (n r : Z) : Z :=
  match bit with
  | O => r
  | S bit' =>
      let r' := r + 2 ^ Z.of_nat bit' in
      cbrt_bits bit' n (if r' * r' * r' <=? n then r' else r)
  end.

Definition cbrt (n : Z) : Z := cbrt_bits (Z.to_nat (Z.log2 n / 3 + 1)) n 0.

Definition frac_sqrt (w q : Z) : Z := Z.sqrt (q * 2 ^ (2 * w)) mod 2 ^ w.
Definition frac_cbrt (w q : Z) : Z := cbrt (q * 2 ^ (3 * w)) mod 2 ^ w.

(** The two functions differ in the word size, the number of rounds, the
    rotation amounts and the constants. *)
Record params : Type := {
  wbits : Z;
  rounds : nat;
  Sig0 : Z * Z * Z;
  Sig1 : Z * Z * Z;
  sig0 : Z * Z * Z;
  sig1 : Z * Z * Z;
  H0 : list Z;
  K : list Z
}.

Definition H256 : list Z := Eval vm_compute in map (frac_sqrt 32) (primes 8).
Definition K256 : list Z := Eval vm_compute in map (frac_cbrt 32) (primes 64).
Definition H512 : list Z := Eval vm_compute in map (frac_sqrt 64) (primes 8).
Definition K512 : list Z := Eval vm_compute in map (frac_cbrt 64) (primes 80).

Definition p256 : params :=
  {| wbits := 32; rounds := 64;
     Sig0 := (2, 13, 22); Sig1 := (6, 11, 25);
     sig0 := (7, 18, 3); sig1 := (17, 19, 10);
     H0 := H256;
     K := K256 |}.

Definition p512 : params :=
  {| wbits := 64; rounds := 80;
     Sig0 := (28, 34, 39); Sig1 := (14, 18, 41);
     sig0 := (1, 8, 7); sig1 := (19, 61, 6);
     H0 := H512;
     K := K512 |}.

Section Params.
Variable p : params.

Let w := wbits p.
Definition wrap (x : Z) : Z := Z.land x (Z.ones w).
Definition add (x y : Z) : Z := wrap (x + y).

Definition rotr (n x : Z) : Z :=
  Z.lor (Z.shiftr x n) (wrap (Z.shiftl x (w - n))).

Definition big_sigma (c : Z * Z * Z) (x : Z) : Z :=
  let '(r1, r2, r3) := c in
  Z.lxor (rotr r1 x) (Z.lxor (rotr r2 x) (rotr r3 x)).

Definition small_sigma (c : Z * Z * Z) (x : Z) : Z :=
  let '(r1, r2, s) := c in
  Z.lxor (rotr r1 x) (Z.lxor (rotr r2 x) (Z.shiftr x s)).

Definition Ch (x y z : Z) : Z :=
  Z.lxor (Z.land x y) (Z.land (Z.lxor x (2 ^ w - 1)) z).

Definition Maj (x y z : Z) : Z :=
  Z.lxor (Z.land x y) (Z.lxor (Z.land x z) (Z.land y z)).

(** Big-endian octets of a number, and back. *)
Fixpoint to_be (n : nat) (x : Z) : bytes :=
  match n with
  | O => []
  | S n' => to_be n' (Z.shiftr x 8) ++ [Z.land x 255]
  end.

Definition of_be (bs : bytes) : Z :=
  fold_left (fun acc b => Z.lor (Z.shiftl acc 8) b) bs 0.

Definition wbytes : nat := Z.to_nat (w / 8).
Definition block_len : nat := (16 * wbytes)%nat.

(** The message, a one bit, zeros, and the bit length in the last
    two words of the last block. *)
Definition pad (msg : bytes) : bytes :=
  let len := Z.of_nat (length msg) in
  let blk := Z.of_nat block_len in
  let zeros := (blk - (len + 1 + 2 * Z.of_nat wbytes) mod blk) mod blk in
  msg ++ [0x80] ++ repeat 0 (Z.to_nat zeros) ++ to_be (2 * wbytes) (8 * len).

Fixpoint chunks (fuel size : nat) (bs : bytes) : list bytes :=
  match fuel with
  | O => []
  | S fuel' =>
      match bs with
      | [] => []
      | _ => firstn size bs :: chunks fuel' size (skipn size bs)
      end
  end.

Definition words (block : bytes) : list Z :=
  map of_be (chunks 16 wbytes block).

(** The message schedule, most recent word first. *)
Fixpoint schedule (n : nat) (rev_w : list Z) : list Z :=
  match n with
  | O => rev_w
  | S n' =>
      let at_ i := nth i rev_w 0 in
      let wt := add (add (small_sigma (sig1 p) (at_ 1%nat)) (at_ 6%nat))
                    (add (small_sigma (sig0 p) (at_ 14%nat)) (at_ 15%nat)) in
      schedule n' (wt :: rev_w)
  end.

Definition round (v : list Z) (kw : Z * Z) : list Z :=
  match v with
  | [a; b; c; d; e; f; g; h] =>
      let t1 := add (add (add h (big_sigma (Sig1 p) e))
                         (add (Ch e f g) (fst kw))) (snd kw) in
      let t2 := add (big_sigma (Sig0 p) a) (Maj a b c) in
      [add t1 t2; a; b; c; add d t1; e; f; g]
  | _ => v
  end.

Definition compress (h : list Z) (block : bytes) : list Z :=
  let ws := rev (schedule (rounds p - 16) (rev (words block))) in
  let v := fold_left round (combine (K p) ws) h in
  map (fun xy => add (fst xy) (snd xy)) (combine h v).

Definition digest (msg : bytes) : bytes :=
  let padded := pad msg in
  let h := fold_left compress (chunks (length padded) block_len padded) (H0 p) in
  flat_map (to_be wbytes) h.
End Params.

End SHA2.

Definition sha256 (msg : bytes) : bytes := SHA2.digest SHA2.p256 msg.
Definition sha512 (msg : bytes) : bytes := SHA2.digest SHA2.p512 msg.

(** A [digestmod]: the hash and the block size [hmac] pads the key to. *)
Record digestmod : Type := {
  hash_digest : bytes -> bytes;
  block_size : nat
}.

Definition hashlib_sha512 : digestmod :=
  {| hash_digest := sha512; block_size := 128 |}.

(** [hmac.new(key, msg, digestmod).digest()] (RFC 2104) *)
Definition hmac_new (key msg : bytes) (d : digestmod) : bytes :=
  let key := if (block_size d <? length key)%nat then hash_digest d key else key in
  let key := key ++ repeat 0 (block_size d - length key) in
  let inner := hash_digest d (map (Z.lxor 0x36) key ++ msg) in
  hash_digest d (map (Z.lxor 0x5C) key ++ inner).

Definition hex_digits : bytes := lit "0123456789abcdef".

Definition hexdigest (bs : bytes) : str :=
  flat_map (fun b => [nth (Z.to_nat (Z.shiftr b 4)) hex_digits 0;
                      nth (Z.to_nat (Z.land b 15)) hex_digits 0]) bs.

(** ** [urllib.parse.urlencode] *)

Definition in_range (lo hi b : Z) : bool := (lo <=? b) && (b <=? hi).

(** Letters, digits and [_.-~] are never quoted. *)
Definition always_safe (b : Z) : bool :=
  in_range 65 90 b || in_range 97 122 b || in_range 48 57 b
  || contains b (lit "_.-~").

Definition HEX : bytes := lit "0123456789ABCDEF".

(** ['%{:02X}'.format(b)] *)
Definition percent (b : Z) : str :=
  [37; nth (Z.to_nat (Z.shiftr b 4)) HEX 0; nth (Z.to_nat (Z.land b 15)) HEX 0].

Definition quote_from_bytes (bs : bytes) (safe : str) : str :=
  flat_map (fun b => if always_safe b || contains b safe then [b] else percent b) bs.

Definition quote (s safe : str) : result str :=
  match s with
  | [] => Ok []
  | _ => rbind (encode s) (fun bs => Ok (quote_from_bytes bs safe))
  end.

Definition space : Z := 32.

Definition quote_plus (s : str) : result str :=
  if negb (contains space s) then quote s []
  else rbind (quote s [space]) (fun q => Ok (replace space (lit "+") q)).

(** The values a request dictionary holds.  [urlencode] reads a value
    through [str()] only; a [float] is carried with the text [str()]
    renders for it. *)
Inductive pyval : Type :=
| PyStr (s : str)
| PyFloat (shown : str).

Definition py_str (v : pyval) : str :=
  match v with
  | PyStr s => s
  | PyFloat t => t
  end.

(** A [dict]: keys in insertion order. *)
Definition dict := list (str * pyval).

(** [d[k] = v]: an existing key keeps its place, a new one goes last. *)
Fixpoint setitem (d : dict) (k : str) (v : pyval) : dict :=
  match d with
  | [] => [(k, v)]
  | (k', v') :: d' =>
      if str_eqb k' k then (k', v) :: d' else (k', v') :: setitem d' k v
  end.

Fixpoint getitem {V : Type} (d : list (str * V)) (k : str) : option V :=
  match d with
  | [] => None
  | (k', v) :: d' => if str_eqb k' k then Some v else getitem d' k
  end.

(** One [k=v] pair of the query string. *)
Definition encode_pair (kv : str * pyval) : result str :=
  rbind (quote_plus (fst kv)) (fun k =>
  rbind (quote_plus (py_str (snd kv))) (fun v =>
  Ok (k ++ lit "=" ++ v))).

Fixpoint encode_pairs (query : dict) : result (list str) :=
  match query with
  | [] => Ok []
  | kv :: rest =>
      rbind (encode_pair kv) (fun x =>
      rbind (encode_pairs rest) (fun l => Ok (x :: l)))
  end.

Definition urlencode (query : dict) : result str :=
  rbind (encode_pairs query) (fun l => Ok (join (lit "&") l)).

(** ** [float]: IEEE 754 binary64, round to nearest, ties to even

    A finite [float] is the rational it denotes, and an operation is the
    exact operation followed by rounding to 53 significant bits.  The
    exponent range is left out: between the smallest and the largest
    magnitude [_get_nonce] meets (a thousandth, and ten million times a
    64-bit timestamp) nothing underflows or overflows. *)

(** [int(x)] of a number with a fraction: towards zero. *)
Definition truncate (x : Q) : Z :=
  if Qle_bool 0 x then Qfloor x else Qceiling x.

Module Binary64.
Local Open Scope Q_scope.

Definition pow2 (k : Z) : Q := 2 ^ k.

(** The exponent of the leading bit of a positive rational. *)
Definition ilog2 (x : Q) : Z :=
  let k := (Z.log2 (Qnum x) - Z.log2 (Zpos (Qden x)))%Z in
  if Qle_bool (pow2 k) x then k else (k - 1)%Z.

(** The nearest integer, ties to even. *)
Definition rne (x : Q) : Z :=
  let f := Qfloor x in
  match Qcompare (x - inject_Z f) (1 # 2) with
  | Lt => f
  | Gt => (f + 1)%Z
  | Eq => if Z.even f then f else (f + 1)%Z
  end.

(** The nearest number with a 53-bit significand. *)
Definition round (x : Q) : Q :=
  if Qeq_bool x 0 then 0
  else
    let e := (ilog2 (Qabs x) - 52)%Z in
    Qred (inject_Z (rne (x / pow2 e)) * pow2 e).

(** [float(n)], [x + y], [x * y], [x / y] *)
Definition of_int (n : Z) : Q := round (inject_Z n).
Definition add (x y : Q) : Q := round (x + y).
Definition mul (x y : Q) : Q := round (x * y).
Definition div (x y : Q) : Q := round (x / y).

(** [int(x)] *)
Definition to_int (x : Q) : Z := truncate x.
End Binary64.

(** The same arithmetic on the machine's binary64 numbers, to compare the
    model with. *)
Module Hardware.
Definition of_int (n : Z) : float :=
  if n <? 0 then PrimFloat.opp (PrimFloat.of_uint63 (Uint63.of_Z (- n)))
  else PrimFloat.of_uint63 (Uint63.of_Z n).

Definition to_int (f : float) : Z :=
  match Prim2SF f with
  | S754_finite neg m e =>
      let v := if 0 <=? e then Z.pos m * 2 ^ e else Z.pos m / 2 ^ (- e) in
      if neg then - v else v
  | _ => 0
  end.

(** [int((s * 1e3 + us / 1e3) * 10000)] *)
Definition nonce (s us : Z) : Z :=
  to_int (PrimFloat.mul
            (PrimFloat.add (PrimFloat.mul (of_int s) 1000%float)
                           (PrimFloat.div (of_int us) 1000%float))
            (of_int 10000)).
End Hardware.

(** [str(n)] of an [int] *)
Definition str_of_int (n : Z) : str := lit (NilZero.string_of_int (Z.to_int n)).

(** ** The client and its world *)

Definition DEFAULT_BASE_URL : str := lit "https://api.mistertango.com:8445".
Definition SUPPORTED_CURRENCIES : list str := [lit "EUR"].

(** [HTTPStatus.OK] *)
Definition HTTPStatus_OK : Z := 200.

Record Mistertango : Type := {
  api_key : str;
  secret_key : str;
  username : str;
  api_url : str
}.

(** What [_get_nonce] reads of [datetime.now()]: [mktime(then.timetuple())],
    a whole number of seconds since the epoch, and [then.microsecond]. *)
Record datetime : Type := {
  mktime_timetuple : Z;
  microsecond : Z
}.

(** [requests.post(url, headers=headers, data=data)] and what it returns. *)
Record request : Type := {
  url : str;
  headers : list (str * str);
  data : str
}.

Record response : Type := {
  status_code : Z;
  text : str
}.

(** What a call does that can be seen from outside: it reads the clock, it
    posts a request.  The signatures computed are recorded beside them. *)
Inductive event : Type :=
| Now (then_ : datetime)
| Sign (nonce payload endpoint signature : str)
| Post (req : request) (answer : result response).

(** The client object, the clock and the network (each answers from what
    has happened so far), and the events so far. *)
Record world : Type := {
  self : Mistertango;
  clock : list event -> datetime;
  network : list event -> request -> result response;
  trace : list event
}.

Definition log (e : event) (w : world) : world :=
  {| self := self w; clock := clock w; network := network w;
     trace := trace w ++ [e] |}.

Definition with_self (c : Mistertango) (w : world) : world :=
  {| self := c; clock := clock w; network := network w; trace := trace w |}.

(** A computation: it returns or raises, and leaves a world. *)
Definition M (A : Type) : Type := world -> result A * world.

Definition ret {A} (a : A) : M A := fun w => (Ok a, w).

Definition raise {A} (e : exn) : M A := fun w => (Raise e, w).

Definition bind {A B} (m : M A) (k : A -> M B) : M B :=
  fun w =>
    match m w with
    | (Ok a, w') => k a w'
    | (Raise e, w') => (Raise e, w')
    end.

Definition lift {A} (r : result A) : M A := fun w => (r, w).

(** [self.f] *)
Definition attr {A} (f : Mistertango -> A) : M A := fun w => (Ok (f (self w)), w).

(** [self.f = v] *)
Definition setattr (upd : Mistertango -> Mistertango) : M unit :=
  fun w => (Ok tt, with_self (upd (self w)) w).

Definition emit (e : event) : M unit := fun w => (Ok tt, log e w).

(** [datetime.now()] *)
Definition datetime_now : M datetime :=
  fun w => let t := clock w (trace w) in (Ok t, log (Now t) w).

(** [requests.post]: the answer is the network's, a response or an
    exception. *)
Definition requests_post (u : str) (h : list (str * str)) (d : str) : M response :=
  fun w =>
    let req := {| url := u; headers := h; data := d |} in
    let ans := network w (trace w) req in
    (ans, log (Post req ans) w).

Notation "x <- m ;; k" := (bind m (fun x => k))
  (at level 61, m at next level, right associativity).
Notation "m ;;; k" := (bind m (fun _ => k))
  (at level 61, right associativity).

(** [repr] of a list of plain strings, as ['{}'.format] shows it. *)
Definition repr_list (l : list str) : str :=
  lit "[" ++ join (lit ", ") (map (fun s => lit "'" ++ s ++ lit "'") l) ++ lit "]".

(** ** The specification's words

    Section 4.2 of the specification, steps 1 to 5, and section 4.1 read
    in exact arithmetic. *)

Module Spec.

(** [sign(secret_key, nonce, encoded_payload, endpoint)] *)
Definition sign (secret_key nonce encoded_payload endpoint : str) : result str :=
  let inner := nonce ++ encoded_payload in
  rbind (encode inner) (fun inner_bytes =>
  let digest1 := sha256 inner_bytes in
  rbind (encode endpoint) (fun endpoint_bytes =>
  let message := endpoint_bytes ++ digest1 in
  rbind (encode secret_key) (fun key =>
  let mac := hmac_new key message hashlib_sha512 in
  decode (b64encode mac)))).

(** Milliseconds since the epoch with the sub-millisecond fraction,
    times 10,000, truncated. *)
Definition nonce (t : datetime) : Z :=
  let ms := (inject_Z (mktime_timetuple t) * 1000 + inject_Z (microsecond t) / 1000)%Q in
  truncate (ms * 10000)%Q.

End Spec.

(** ** [Mistertango] *)

Section Client.

(** [json.loads] and the values it returns. *)
Variable json : Type.
Variable json_loads : str -> result json.

(** Lines 32 to 37: [api_url or DEFAULT_BASE_URL] takes the default for
    [None] and for the empty string. *)
Definition __init__ (api_key' secret_key' username' : str) (api_url' : option str)
  : M unit :=
  setattr (fun c => {| api_key := api_key'; secret_key := secret_key c;
                       username := username c; api_url := api_url c |}) ;;;
  setattr (fun c => {| api_key := api_key c; secret_key := secret_key';
                       username := username c; api_url := api_url c |}) ;;;
  setattr (fun c => {| api_key := api_key c; secret_key := secret_key c;
                       username := username'; api_url := api_url c |}) ;;;
  let u := match api_url' with
           | Some (c :: u') => c :: u'
           | _ => DEFAULT_BASE_URL
           end in
  setattr (fun c => {| api_key := api_key c; secret_key := secret_key c;
                       username := username c; api_url := u |}).

(** Line 40.  No method calls it. *)
Definition _convert_username (username : str) : str :=
  replace 64 (lit "%40") username.

(** [(mktime(then.timetuple()) * 1e3 + then.microsecond / 1e3) * 10000] *)
Definition epochStr (then_ : datetime) : Q :=
  Binary64.mul
    (Binary64.add
       (Binary64.mul (Binary64.of_int (mktime_timetuple then_)) 1000%Q)
       (Binary64.div (Binary64.of_int (microsecond then_)) 1000%Q))
    (Binary64.of_int 10000).

(** Lines 42 to 45. *)
Definition _get_nonce : M str :=
  then_ <- datetime_now ;;
  ret (str_of_int (Binary64.to_int (epochStr then_))).

(** Lines 47 to 55.  The [Sign] event keeps a record of what was signed;
    the code has no such effect. *)
Definition _make_signature (nonce data endpoint : str) : M str :=
  encoded <- lift (encode (nonce ++ data)) ;;
  endpoint_bytes <- lift (encode endpoint) ;;
  let message := endpoint_bytes ++ sha256 encoded in
  secret <- attr secret_key ;;
  key <- lift (encode secret) ;;
  let signature := hmac_new key message hashlib_sha512 in
  let sigdigest := b64encode signature in
  sig <- lift (decode sigdigest) ;;
  emit (Sign nonce data endpoint sig) ;;;
  ret sig.

(** Lines 57 to 64. *)
Definition _prepare_headers (nonce endpoint data : str) : M (list (str * str)) :=
  signature <- _make_signature nonce data endpoint ;;
  key <- attr api_key ;;
  ret [(lit "X-API-KEY", key);
       (lit "X-API-SIGN", signature);
       (lit "X-API-NONCE", nonce);
       (lit "Content-Type", lit "application/x-www-form-urlencoded")].

Definition _generate_url (endpoint : str) : M str :=
  base <- attr api_url ;;
  ret (base ++ endpoint).

(** Lines 69 to 79. *)
Definition _send_request (endpoint : str) (data : dict) : M json :=
  nonce <- _get_nonce ;;
  let data := setitem data (lit "nonce") (PyStr nonce) in
  post_params <- lift (urlencode data) ;;
  headers <- _prepare_headers nonce endpoint post_params ;;
  u <- _generate_url endpoint ;;
  r <- requests_post u headers post_params ;;
  if negb (status_code r =? HTTPStatus_OK) then
    raise (PaymentException (lit "MisterTango error: " ++ text r))
  else lift (json_loads (text r)).

(** Lines 81 to 95. *)
Definition get_balance : M json :=
  let endpoint := lit "/v1/transaction/getBalance" in
  user <- attr username ;;
  let data := [(lit "username", PyStr user)] in
  _send_request endpoint data.

(** Lines 97 to 137. *)
Definition send_money (amount : pyval) (currency recipient account details : str)
  : M json :=
  let endpoint := lit "/v1/transaction/sendMoney" in
  if negb (existsb (str_eqb currency) SUPPORTED_CURRENCIES) then
    raise (AttributeError
             (lit "Currency not supported. Please use any from this list: "
              ++ repr_list SUPPORTED_CURRENCIES))
  else
    user <- attr username ;;
    let data := [(lit "username", PyStr user);
                 (lit "amount", amount);
                 (lit "currency", PyStr currency);
                 (lit "recipient", PyStr recipient);
                 (lit "account", PyStr account);
                 (lit "details", PyStr details)] in
    _send_request endpoint data.

(** The public operations, and a client's life as a list of them. *)
Inductive call : Type :=
| GetBalance
| SendMoney (amount : pyval) (currency recipient account details : str).

Definition run (c : call) : M json :=
  match c with
  | GetBalance => get_balance
  | SendMoney a c r acc d => send_money a c r acc d
  end.

Fixpoint run_all (cs : list call) (w : world) : world :=
  match cs with
  | [] => w
  | c :: rest => run_all rest (snd (run c w))
  end.

(** The events a call adds to the trace. *)
Definition events (c : call) (w : world) : list event :=
  skipn (length (trace w)) (trace (snd (run c w))).


(** ** Names for the parts of a call *)

(** The currency check of [send_money]. *)
Definition accepted (c : call) : bool :=
  match c with
  | GetBalance => true
  | SendMoney _ currency _ _ _ => existsb (str_eqb currency) SUPPORTED_CURRENCIES
  end.

Definition endpoint_of (c : call) : str :=
  match c with
  | GetBalance => lit "/v1/transaction/getBalance"
  | SendMoney _ _ _ _ _ => lit "/v1/transaction/sendMoney"
  end.

(** The fields an operation puts in its dictionary. *)
Definition fields_of (c : call) (w : world) : dict :=
  match c with
  | GetBalance => [(lit "username", PyStr (username (self w)))]
  | SendMoney amount currency recipient account details =>
      [(lit "username", PyStr (username (self w)));
       (lit "amount", amount);
       (lit "currency", PyStr currency);
       (lit "recipient", PyStr recipient);
       (lit "account", PyStr account);
       (lit "details", PyStr details)]
  end.

(** [int(epochStr)], and the nonce a call started in [w] gets. *)
Definition nonce_int (t : datetime) : Z := Binary64.to_int (epochStr t).

Definition nonce_at (w : world) : str := str_of_int (nonce_int (clock w (trace w))).

(** Lines 76 to 79 of [_send_request], on what [requests.post] gave. *)
Definition classified (ans : result response) : result json :=
  match ans with
  | Raise e => Raise e
  | Ok r =>
      if negb (status_code r =? HTTPStatus_OK) then
        Raise (PaymentException (lit "MisterTango error: " ++ text r))
      else json_loads (text r)
  end.

Definition request_of (w : world) (endpoint nonce payload signature : str) : request :=
  {| url := api_url (self w) ++ endpoint;
     headers := [(lit "X-API-KEY", api_key (self w));
                 (lit "X-API-SIGN", signature);
                 (lit "X-API-NONCE", nonce);
                 (lit "Content-Type", lit "application/x-www-form-urlencoded")];
     data := payload |}.

(** The instants the analysis of [_get_nonce] covers: a timestamp of 31
    bits and a microsecond field as [datetime] keeps it. *)
Definition in_range_instant (t : datetime) : Prop :=
  0 <= mktime_timetuple t < 2 ^ 31 /\ 0 <= microsecond t < 1000000.

(** [a] is an earlier instant than [b]. *)
Definition earlier (a b : datetime) : Prop :=
  mktime_timetuple a < mktime_timetuple b
  \/ (mktime_timetuple a = mktime_timetuple b /\ microsecond a < microsecond b).

(** Ten million times the seconds plus ten times the microseconds: the
    value [epochStr] approximates. *)
Definition ticks (t : datetime) : Z :=
  10000000 * mktime_timetuple t + 10 * microsecond t.





(** Text made of never-quoted characters. *)
Definition safe_text (s : str) : Prop := Forall (fun c => always_safe c = true) s.

(** ** What [quote_plus] does to a character *)

(** A space becomes a plus sign, a never-quoted character stays, and
    every other character becomes the [%XX] of each octet of its UTF-8
    form. *)
Definition form_char (c : Z) : str :=
  if c =? space then lit "+"
  else if always_safe c then [c]
  else match encode_char c with
       | Some bs => flat_map percent bs
       | None => []
       end.

(** ** The specification's sentences that the code does not bear out *)

(** C4 as the specification words it: the message is the body itself. *)
Definition message_is_body : Prop :=
  forall c w req r,
    In (Post req (Ok r)) (events c w) ->
    status_code r <> 200 ->
    fst (run c w) = Raise (PaymentException (text r)).

(** C8 as the specification words it: in the body the username has its
    [@] signs replaced by [%40] and nothing else changed. *)
Definition only_at_sign_encoded : Prop :=
  forall c w req ans,
    In (Post req ans) (events c w) ->
    In 64 (username (self w)) ->
    exists tail,
      urlencode (tl (fields_of c w) ++ [(lit "nonce", PyStr (nonce_at w))]) = Ok tail
      /\ data req = lit "username=" ++ _convert_username (username (self w))
                    ++ lit "&" ++ tail.





(** ** Words for what a call does and sends *)

(** Text [str.encode()] accepts. *)
Definition encodable (s : str) : Prop := exists bs, encode s = Ok bs.

(** A call whose strings all have a UTF-8 form: the secret key and the
    text of every field. *)
Definition well_formed (c : call) (w : world) : Prop :=
  encodable (secret_key (self w))
  /\ Forall (fun kv => encodable (py_str (snd kv))) (fields_of c w).

(** The characters of a form-encoded body: the never-quoted ones and
    [%], [+], [=], [&]. *)
Definition body_char (ch : Z) : bool := always_safe ch || contains ch (lit "%+=&").

Definition body_text (s : str) : Prop := Forall (fun ch => body_char ch = true) s.

Definition octet (b : Z) : Prop := 0 <= b < 256.

Definition digit (ch : Z) : bool := in_range 48 57 ch.

(** The characters of base64 text. *)
Definition b64_text (ch : Z) : bool := contains ch b64_alphabet || (ch =? b64_pad).

Definition is_post (e : event) : bool :=
  match e with
  | Post _ _ => true
  | _ => false
  end.

Definition is_now (e : event) : bool :=
  match e with
  | Now _ => true
  | _ => false
  end.

(** How many requests, and how many clock readings, a trace holds. *)
Definition posts (tr : list event) : nat := length (filter is_post tr).
Definition readings (tr : list event) : nat := length (filter is_now tr).

(** The form-encoded text of a field value. *)
Definition form (s : str) : str := flat_map form_char s.

(** One pair of the query string, its key made of never-quoted
    characters. *)
Definition pair_text (kv : str * pyval) : str :=
  fst kv ++ lit "=" ++ form (py_str (snd kv)).

(** The body of each operation, field by field. *)
Definition wire (c : call) (w : world) : str :=
  match c with
  | GetBalance =>
      lit "username=" ++ form (username (self w))
      ++ lit "&nonce=" ++ nonce_at w
  | SendMoney amount currency recipient account details =>
      lit "username=" ++ form (username (self w))
      ++ lit "&amount=" ++ form (py_str amount)
      ++ lit "&currency=EUR"
      ++ lit "&recipient=" ++ form recipient
      ++ lit "&account=" ++ form account
      ++ lit "&details=" ++ form details
      ++ lit "&nonce=" ++ nonce_at w
  end.

(** The names of the headers, in the order [_prepare_headers] gives. *)
Definition header_names : list str :=
  [lit "X-API-KEY"; lit "X-API-SIGN"; lit "X-API-NONCE"; lit "Content-Type"].

(** [api_url or DEFAULT_BASE_URL] *)
Definition base_or_default (base : option str) : str :=
  match base with
  | Some (ch :: u) => ch :: u
  | _ => DEFAULT_BASE_URL
  end.

(** ** A client, a clock and a mocked transport *)

(** A decoder that hands the body back as it is. *)
Definition raw_json (body : str) : result str := Ok body.

Definition demo_client : Mistertango :=
  {| api_key := lit "pk-demo";
     secret_key := lit "s3cr" ++ [0xE9] ++ lit "t";
     username := lit "john+doe@example.com";
     api_url := DEFAULT_BASE_URL |}.

(** 14 November 2023, 22:13:20 and five microseconds. *)
Definition demo_instant : datetime :=
  {| mktime_timetuple := 1700000000; microsecond := 5 |}.

Definition bad_signature : response :=
  {| status_code := 400; text := lit "bad signature" |}.

(** The transport of section 8: status 400, body [bad signature]. *)
Definition demo_world : world :=
  {| self := demo_client;
     clock := fun _ => demo_instant;
     network := fun _ _ => Ok bad_signature;
     trace := [] |}.

(** Another client with the same secret key, at another time, on another
    network, with a past. *)
Definition other_world : world :=
  {| self := {| api_key := lit "pk-other";
                secret_key := lit "s3cr" ++ [0xE9] ++ lit "t";
                username := lit "jane";
                api_url := lit "https://localhost" |};
     clock := fun _ => {| mktime_timetuple := 1; microsecond := 0 |};
     network := fun _ _ => Raise (RequestException (lit "connection refused"));
     trace := [Now demo_instant] |}.

Definition demo_payload : str :=
  lit "username=john%2Bdoe%40example.com&nonce=17000000000000048".

Definition demo_signature : str :=
  lit "7PmzzWa0QwGDlq+qGueMx1RnoqyiPMJICUIqD2BmiASjTXtB+6fI99zkPRqSNWFFD3LOF5Jx4PN7Mcj6P+VF+A==".

Definition demo_request : request :=
  {| url := lit "https://api.mistertango.com:8445/v1/transaction/getBalance";
     headers := [(lit "X-API-KEY", lit "pk-demo");
                 (lit "X-API-SIGN", demo_signature);
                 (lit "X-API-NONCE", lit "17000000000000048");
                 (lit "Content-Type", lit "application/x-www-form-urlencoded")];
     data := demo_payload |}.

(** A transport that accepts everything: status 200, an empty object. *)
Definition accepting_world : world :=
  {| self := demo_client;
     clock := fun _ => demo_instant;
     network := fun _ _ => Ok {| status_code := 200; text := lit "{}" |};
     trace := [] |}.

Definition demo_transfer : call :=
  SendMoney (PyFloat (lit "10.5")) (lit "EUR") (lit "Jane Roe")
    (lit "LT601010012345678901") (lit "invoice 7").

Definition transfer_payload : str :=
  lit "username=john%2Bdoe%40example.com&amount=10.5&currency=EUR&recipient=Jane+Roe&account=LT601010012345678901&details=invoice+7&nonce=17000000000000048".

Definition transfer_signature : str :=
  lit "7hTJolH3XjULvyXa2Q4HDmLkZazxKl2w/S7WAIDSJm9rSQF9cOeqUmNYOFregW5eBqDW1mZRqthTQGYvu+inGQ==".

Definition transfer_request : request :=
  {| url := lit "https://api.mistertango.com:8445/v1/transaction/sendMoney";
     headers := [(lit "X-API-KEY", lit "pk-demo");
                 (lit "X-API-SIGN", transfer_signature);
                 (lit "X-API-NONCE", lit "17000000000000048");
                 (lit "Content-Type", lit "application/x-www-form-urlencoded")];
     data := transfer_payload |}.

(** The balance request of the demo client when it is built with
    another base address: only the address changes. *)
Definition sandbox_request : request :=
  {| url := lit "https://sandbox.example/v1/transaction/getBalance";
     headers := headers demo_request;
     data := demo_payload |}.

(** A clock that moves on by a second with every event, in front of a
    transport that accepts everything. *)
Definition ticking_world : world :=
  {| self := demo_client;
     clock := fun past => {| mktime_timetuple := 1700000000 + Z.of_nat (length past);
                             microsecond := 5 |};
     network := fun _ _ => Ok {| status_code := 200; text := lit "{}" |};
     trace := [] |}.


(** ** Known answers *)

Example utf8_sample :
  encode [0xE9; 0x20AC; 0x1F600] = Ok [195; 169; 226; 130; 172; 240; 159; 152; 128]
  /\ decode [195; 169; 226; 130; 172; 240; 159; 152; 128] = Ok [0xE9; 0x20AC; 0x1F600]
  /\ encode [0xD800] = Raise UnicodeEncodeError.
Proof. repeat split; reflexivity. Qed.

Example b64_sample :
  b64encode (lit "f") = lit "Zg==" /\ b64encode (lit "fo") = lit "Zm8="
  /\ b64encode (lit "foo") = lit "Zm9v" /\ b64encode (lit "foob") = lit "Zm9vYg=="
  /\ b64encode [251; 255; 254] = lit "+//+".
Proof. repeat split; reflexivity. Qed.

Example sha256_abc :
  hexdigest (sha256 (lit "abc"))
  = lit "ba7816bf8f01cfea414140de5dae2223b00361a396177a9cb410ff61f20015ad".
Proof. vm_compute. reflexivity. Qed.

Example sha512_abc :
  hexdigest (sha512 (lit "abc"))
  = lit "ddaf35a193617abacc417349ae20413112e6fa4e89a97ea20a9eeee64b55d39a2192992a274fc1a836ba3c23a3feebbd454d4423643ce80e2a9ac94fa54ca49f".
Proof. vm_compute. reflexivity. Qed.

Example sha_two_blocks :
  hexdigest (sha256 (repeat 97 200))
  = lit "c2a908d98f5df987ade41b5fce213067efbcc21ef2240212a41e54b5e7c28ae5"
  /\ hexdigest (sha512 (repeat 97 200))
  = lit "4b11459c33f52a22ee8236782714c150a3b2c60994e9acee17fe68947a3e6789f31e7668394592da7bef827cddca88c4e6f86e4df7ed1ae6cba71f3e98faee9f".
Proof. split; vm_compute; reflexivity. Qed.

Example hmac_sha512_rfc4231 :
  hexdigest (hmac_new (lit "Jefe") (lit "what do ya want for nothing?") hashlib_sha512)
  = lit "164b7a7bfcf819e2e395fbe73b56e0a387bd64222e831fd610270cd7ea2505549758bf75c05a994a6d034f65f8f0e6fdcaeab1a34d4a6b4b636e070a38bce737".
Proof. vm_compute. reflexivity. Qed.

Example hmac_sha512_long_key :
  hexdigest (hmac_new (repeat 107 200) (lit "msg") hashlib_sha512)
  = lit "b5245971beb52a5a986812c4666a05c735bf5bb7aba32eae2192adad605df4112d6c285d1c46cf81ccb7ab8c2c3b7b3c6793216909b5add05223ed21f24cdb1e".
Proof. vm_compute. reflexivity. Qed.

Example urlencode_sample :
  urlencode [(lit "username", PyStr (lit "a b@c~d/" ++ [0xE9; 0x20AC; 0x1F600]));
             (lit "amount", PyFloat (lit "10.5"));
             (lit "currency", PyStr (lit "EUR"));
             (lit "nonce", PyStr (lit "1"))]
  = Ok (lit "username=a+b%40c~d%2F%C3%A9%E2%82%AC%F0%9F%98%80&amount=10.5&currency=EUR&nonce=1").
Proof. vm_compute. reflexivity. Qed.

Example convert_username_sample :
  _convert_username (lit "john+doe@example.com") = lit "john+doe%40example.com".
Proof. reflexivity. Qed.

(** The rounding model and the machine's binary64 arithmetic give the same
    nonce, here at instants from 1969 to 9999. *)
Example binary64_agrees_with_hardware :
  forallb (fun t => nonce_int t =? Hardware.nonce (mktime_timetuple t) (microsecond t))
    (map (fun p => {| mktime_timetuple := fst p; microsecond := snd p |})
       [(0, 0); (0, 1); (0, 999); (1, 0); (3, 141592); (-1, 500000); (-86400, 3);
        (1700000000, 1); (1700000000, 5); (1762190000, 123456); (1793000000, 7);
        (2147483647, 999999); (4102444800, 499999); (10000000000, 1);
        (10000000000, 2); (253402300799, 999999)])
  = true.
Proof. vm_compute. reflexivity. Qed.

Example nonce_samples :
  nonce_int {| mktime_timetuple := 1700000000; microsecond := 1 |} = 17000000000000010
  /\ nonce_int {| mktime_timetuple := 1700000000; microsecond := 5 |} = 17000000000000048
  /\ nonce_int {| mktime_timetuple := 2147483647; microsecond := 999999 |}
     = 21474836479999992.
Proof. repeat split; vm_compute; reflexivity. Qed.

(** A signature computed by [hashlib], [hmac] and [base64] themselves, the
    secret key holding a character past ASCII. *)
Example signature_known_answer :
  Spec.sign (lit "s3cr" ++ [0xE9] ++ lit "t") (lit "17000000000000048")
    (lit "username=john%2Bdoe%40example.com&nonce=17000000000000048")
    (lit "/v1/transaction/getBalance")
  = Ok (lit "7PmzzWa0QwGDlq+qGueMx1RnoqyiPMJICUIqD2BmiASjTXtB+6fI99zkPRqSNWFFD3LOF5Jx4PN7Mcj6P+VF+A==").
Proof. vm_compute. reflexivity. Qed.

(** ** Text *)

Lemma str_eqb_eq (a b : str) : str_eqb a b = true <-> a = b.
Proof.
  revert b. induction a as [| x a IH]; intros [| y b]; simpl;
    try (split; [discriminate | congruence]); try tauto.
  rewrite andb_true_iff, Z.eqb_eq, IH. split.
  - intros [-> ->]. reflexivity.
  - intros H. injection H. auto.
Qed.

Lemma str_eqb_refl (a : str) : str_eqb a a = true.
Proof. apply str_eqb_eq. reflexivity. Qed.

(** A never-quoted character is an ASCII character other than the
    space. *)
Lemma always_safe_ascii (c : Z) : always_safe c = true -> 0 < c < 128 /\ c <> space.
Proof.
  unfold always_safe, in_range, contains, space.
  change (lit "_.-~") with [95; 46; 45; 126]. cbn [existsb].
  rewrite !orb_true_iff, !andb_true_iff, !Z.leb_le, !Z.eqb_eq. intuition lia.
Qed.


Lemma encode_char_ascii (c : Z) : 0 <= c < 128 -> encode_char c = Some [c].
Proof.
  intros H. unfold encode_char.
  destruct (Z.ltb_spec c 0); [lia |].
  destruct (Z.ltb_spec c 0x80); [reflexivity | lia].
Qed.

Lemma encode_ascii (s : str) : Forall (fun c => 0 <= c < 128) s -> encode s = Ok s.
Proof.
  induction 1 as [| c s Hc _ IH]; [reflexivity |].
  cbn [encode]. rewrite (encode_char_ascii c Hc), IH. reflexivity.
Qed.

Lemma safe_text_ascii (s : str) : safe_text s -> Forall (fun c => 0 <= c < 128) s.
Proof.
  apply Forall_impl. intros c H. apply always_safe_ascii in H. lia.
Qed.

Lemma safe_text_no_space (s : str) : safe_text s -> contains space s = false.
Proof.
  induction 1 as [| c s Hc _ IH]; [reflexivity |].
  unfold contains in *. cbn [existsb]. rewrite IH.
  apply always_safe_ascii in Hc. destruct (Z.eqb_spec space c); [lia | reflexivity].
Qed.

Lemma quote_from_bytes_safe (s safe : str) : safe_text s -> quote_from_bytes s safe = s.
Proof.
  induction 1 as [| c s Hc _ IH]; [reflexivity |].
  unfold quote_from_bytes in *. cbn [flat_map]. rewrite Hc, IH. reflexivity.
Qed.

(** Text of never-quoted characters passes [quote_plus] unchanged. *)
Lemma quote_plus_safe (s : str) : safe_text s -> quote_plus s = Ok s.
Proof.
  intros H. unfold quote_plus. rewrite (safe_text_no_space s H). cbn [negb].
  unfold quote. destruct s as [| c s]; [reflexivity |].
  rewrite (encode_ascii _ (safe_text_ascii _ H)). cbn [rbind].
  rewrite (quote_from_bytes_safe _ _ H). reflexivity.
Qed.

(** ** [quote_plus], character by character *)


Lemma high_bit_unsafe (b : Z) :
  Z.testbit b 7 = true -> always_safe b = false /\ b <> space.
Proof.
  intros H.
  assert (A : ~ 0 <= b < 128).
  { intros [H0 H1]. destruct (Z.eq_dec b 0) as [-> | Hn]; [discriminate |].
    rewrite Z.bits_above_log2 in H; [discriminate | lia |].
    apply Z.log2_lt_pow2; lia. }
  split.
  - destruct (always_safe b) eqn:E; [| reflexivity].
    apply always_safe_ascii in E. lia.
  - unfold space. lia.
Qed.

Lemma lor_high_bit (m x : Z) : Z.testbit m 7 = true -> Z.testbit (Z.lor m x) 7 = true.
Proof. intros H. rewrite Z.lor_spec, H. reflexivity. Qed.

(** The octets of a character past ASCII all have the high bit set. *)
Lemma encode_char_high (c : Z) (bs : bytes) :
  encode_char c = Some bs -> 128 <= c -> Forall (fun b => Z.testbit b 7 = true) bs.
Proof.
  unfold encode_char, cont. intros H Hc.
  destruct (c <? 0); [discriminate |].
  destruct (Z.ltb_spec c 0x80); [lia |].
  repeat match type of H with
         | (if ?b then _ else _) = _ => destruct b
         end;
    try discriminate;
    match type of H with
    | Some ?l = Some _ => assert (E : l = bs) by congruence; rewrite <- E
    end;
    repeat (apply Forall_cons; [apply lor_high_bit; reflexivity |]);
    apply Forall_nil.
Qed.

Lemma percent_no_space (b : Z) : contains space (percent b) = false.
Proof.
  assert (A : forall n, nth n HEX 0 <> space).
  { intros n. do 17 (destruct n as [| n]; [cbv; discriminate |]).
    destruct n; cbv; discriminate. }
  unfold percent, contains. cbn [existsb].
  repeat match goal with
         | |- context [space =? ?x] =>
             destruct (Z.eqb_spec space x) as [E | _];
             [try (symmetry in E; apply A in E; destruct E); try discriminate |]
         end.
  reflexivity.
Qed.

Lemma replace_app (old : Z) (new a b : str) :
  replace old new (a ++ b) = replace old new a ++ replace old new b.
Proof. unfold replace. apply flat_map_app. Qed.

Lemma replace_absent (old : Z) (new s : str) :
  contains old s = false -> replace old new s = s.
Proof.
  unfold contains, replace. induction s as [| c s IH]; [reflexivity |].
  cbn [existsb flat_map]. intros H. apply orb_false_iff in H as [H1 H2].
  rewrite Z.eqb_sym, H1, (IH H2). reflexivity.
Qed.

Lemma flat_map_percent_no_space (bs : bytes) :
  contains space (flat_map percent bs) = false.
Proof.
  induction bs as [| b bs IH]; [reflexivity |].
  cbn [flat_map]. unfold contains in *. rewrite existsb_app.
  fold (contains space (percent b)). rewrite percent_no_space, IH. reflexivity.
Qed.

(** One character through [quote_from_bytes], with or without the space
    among the safe characters, then through the replacement of spaces. *)
Lemma quote_char (c : Z) (bs : bytes) :
  encode_char c = Some bs ->
  replace space (lit "+") (quote_from_bytes bs [space]) = form_char c
  /\ (c <> space -> quote_from_bytes bs [] = form_char c).
Proof.
  intros H. unfold form_char.
  destruct (Z.eqb_spec c space) as [-> | Hsp].
  - cbv in H. injection H as <-. split; [reflexivity | congruence].
  - destruct (Z_lt_ge_dec c 128) as [Hlo | Hhi].
    + assert (Hc : 0 <= c < 128).
      { split; [| lia]. unfold encode_char in H.
        destruct (Z.ltb_spec c 0); [discriminate | lia]. }
      rewrite (encode_char_ascii c Hc) in *. injection H as <-.
      unfold quote_from_bytes. cbn [flat_map]. rewrite !app_nil_r.
      assert (Hns : contains c [space] = false).
      { unfold contains. cbn [existsb]. destruct (Z.eqb_spec c space); [lia | reflexivity]. }
      rewrite Hns. change (contains c []) with false. rewrite !orb_false_r.
      destruct (always_safe c) eqn:E.
      * split; [| reflexivity]. unfold replace. cbn [flat_map].
        destruct (Z.eqb_spec c space); [lia | reflexivity].
      * split; [| reflexivity]. apply replace_absent. apply percent_no_space.
    + pose proof (encode_char_high c bs H ltac:(lia)) as Hb.
      assert (Hu : always_safe c = false).
      { destruct (always_safe c) eqn:E; [| reflexivity].
        apply always_safe_ascii in E. lia. }
      rewrite Hu. rewrite H.
      assert (Q : forall safe,
                  (forall b, In b bs -> contains b safe = false) ->
                  quote_from_bytes bs safe = flat_map percent bs).
      { intros safe Hs. unfold quote_from_bytes.
        rewrite !flat_map_concat_map. f_equal. apply map_ext_in.
        intros b Hin. rewrite (Hs b Hin).
        rewrite Forall_forall in Hb. apply Hb, high_bit_unsafe in Hin as [-> _].
        reflexivity. }
      split.
      * rewrite (Q [space]).
        -- apply replace_absent, flat_map_percent_no_space.
        -- intros b Hin. rewrite Forall_forall in Hb.
           apply Hb, high_bit_unsafe in Hin as [_ Hin].
           unfold contains. cbn [existsb].
           destruct (Z.eqb_spec b space); [contradiction | reflexivity].
      * intros _. apply (Q []). reflexivity.
Qed.

Lemma quote_from_bytes_app (a b : bytes) (safe : str) :
  quote_from_bytes (a ++ b) safe = quote_from_bytes a safe ++ quote_from_bytes b safe.
Proof. unfold quote_from_bytes. apply flat_map_app. Qed.

Lemma quote_chars (s : str) (bs : bytes) :
  encode s = Ok bs ->
  replace space (lit "+") (quote_from_bytes bs [space]) = flat_map form_char s
  /\ (contains space s = false -> quote_from_bytes bs [] = flat_map form_char s).
Proof.
  revert bs. induction s as [| c s IH]; intros bs H.
  - injection H as <-. split; reflexivity.
  - cbn [encode] in H. destruct (encode_char c) as [bc |] eqn:Ec; [| discriminate].
    destruct (encode s) as [rest | e]; [| discriminate].
    cbn [rbind] in H. injection H as <-.
    destruct (IH rest eq_refl) as [IH1 IH2].
    destruct (quote_char c bc Ec) as [Q1 Q2].
    rewrite !quote_from_bytes_app, replace_app. cbn [flat_map].
    split.
    + rewrite Q1, IH1. reflexivity.
    + unfold contains. cbn [existsb]. intros Hn.
      apply orb_false_iff in Hn as [Hc Hs].
      rewrite Q2, (IH2 Hs); [reflexivity |].
      intros ->. rewrite Z.eqb_refl in Hc. discriminate.
Qed.

Lemma encode_raises (s : str) (e : exn) : encode s = Raise e -> e = UnicodeEncodeError.
Proof.
  induction s as [| c s IH]; [discriminate |].
  cbn [encode]. destruct (encode_char c); [| congruence].
  destruct (encode s); [discriminate |].
  cbn [rbind]. intros H. injection H as <-. apply IH. reflexivity.
Qed.

(** [quote_plus], character by character; it raises exactly when the
    text has no UTF-8 form. *)
Lemma quote_plus_chars (s : str) :
  quote_plus s = rbind (encode s) (fun _ => Ok (flat_map form_char s)).
Proof.
  unfold quote_plus, quote.
  destruct (contains space s) eqn:Hs; cbn [negb].
  - destruct s as [| c s]; [discriminate |].
    destruct (encode (c :: s)) as [bs | e] eqn:E; [| reflexivity].
    cbn [rbind]. rewrite (proj1 (quote_chars _ _ E)). reflexivity.
  - destruct s as [| c s]; [reflexivity |].
    destruct (encode (c :: s)) as [bs | e] eqn:E; [| reflexivity].
    cbn [rbind]. rewrite (proj2 (quote_chars _ _ E) Hs). reflexivity.
Qed.

Lemma form_char_safe (ch : Z) : always_safe ch = true -> form_char ch = [ch].
Proof.
  intros Hc. unfold form_char. rewrite Hc.
  apply always_safe_ascii in Hc as [_ Hc].
  destruct (Z.eqb_spec ch space); [contradiction | reflexivity].
Qed.

(** On never-quoted characters and [@] signs, form-encoding is the
    replacement [_convert_username] makes. *)
Lemma form_chars_convert (s : str) :
  Forall (fun ch => ch = 64 \/ always_safe ch = true) s ->
  flat_map form_char s = _convert_username s.
Proof.
  unfold _convert_username, replace.
  induction 1 as [| ch s Hch _ IH]; [reflexivity |].
  cbn [flat_map]. rewrite IH. f_equal.
  destruct Hch as [-> | Hs]; [reflexivity |].
  rewrite (form_char_safe ch Hs).
  destruct (Z.eqb_spec ch 64) as [-> | _]; [discriminate Hs | reflexivity].
Qed.

(** ** The signature is ASCII text *)

Lemma decode_ascii (bs : bytes) : Forall (fun b => 0 <= b < 128) bs -> decode bs = Ok bs.
Proof.
  induction 1 as [| b bs Hb _ IH]; [reflexivity |].
  cbn [decode]. rewrite IH.
  destruct (Z.leb_spec 0 b); [| lia]. destruct (Z.ltb_spec b 0x80); [| lia].
  reflexivity.
Qed.

Lemma b64_char_ascii (i : Z) : 0 <= b64_char i < 128.
Proof.
  unfold b64_char. generalize (Z.to_nat i). intros n.
  do 64 (destruct n as [| n]; [cbv; split; congruence |]).
  destruct n; cbv; split; congruence.
Qed.

Lemma b64encode_ascii (bs : bytes) : Forall (fun b => 0 <= b < 128) (b64encode bs).
Proof.
  assert (P : 0 <= b64_pad < 128) by (cbv; split; congruence).
  assert (A : forall bs, Forall (fun b => 0 <= b < 128) (b64encode bs)
                         /\ (forall a, Forall (fun b => 0 <= b < 128) (b64encode (a :: bs)))
                         /\ (forall a b, Forall (fun b => 0 <= b < 128) (b64encode (a :: b :: bs)))).
  { clear bs. induction bs as [| c bs (IH0 & IH1 & IH2)].
    - repeat split; intros; cbn [b64encode];
        repeat (apply Forall_cons; [first [exact P | apply b64_char_ascii] |]);
        apply Forall_nil.
    - split; [apply IH1 |]. split; [intros a; apply IH2 |]. intros a b.
      cbn [b64encode].
      repeat (apply Forall_cons; [apply b64_char_ascii |]). exact IH0. }
  apply A.
Qed.

Lemma decode_b64encode (bs : bytes) : decode (b64encode bs) = Ok (b64encode bs).
Proof. apply decode_ascii, b64encode_ascii. Qed.

(** ** The nonce is a run of digits, with a sign if negative *)

Lemma lit_cons (a : ascii) (s : string) : lit (String a s) = ord a :: lit s.
Proof. reflexivity. Qed.

Lemma digits_safe (d : Decimal.uint) : safe_text (lit (NilEmpty.string_of_uint d)).
Proof.
  induction d; cbn [NilEmpty.string_of_uint];
    [apply Forall_nil | rewrite lit_cons; apply Forall_cons; [reflexivity | exact IHd] ..].
Qed.

Lemma digits_safe' (d : Decimal.uint) : safe_text (lit (NilZero.string_of_uint d)).
Proof.
  destruct d; [apply Forall_cons; [reflexivity | apply Forall_nil] | apply digits_safe ..].
Qed.

Lemma str_of_int_safe (n : Z) : safe_text (str_of_int n).
Proof.
  unfold str_of_int, NilZero.string_of_int.
  destruct (Z.to_int n) as [d | d]; [apply digits_safe' |].
  rewrite lit_cons. apply Forall_cons; [reflexivity | apply digits_safe'].
Qed.

(** ** Dictionaries and query strings *)

Lemma setitem_new (d : dict) (k : str) (v : pyval) :
  getitem d k = None -> setitem d k v = d ++ [(k, v)].
Proof.
  induction d as [| [k' v'] d IH]; [reflexivity |].
  cbn [getitem setitem]. destruct (str_eqb k' k); [discriminate |].
  intros H. rewrite (IH H). reflexivity.
Qed.

Lemma join_snoc (sep : str) (l : list str) (x y : str) :
  join sep ((x :: l) ++ [y]) = join sep (x :: l) ++ sep ++ y.
Proof.
  revert x. induction l as [| z l IH]; intros x; [reflexivity |].
  change (join sep ((x :: z :: l) ++ [y])) with (x ++ sep ++ join sep ((z :: l) ++ [y])).
  rewrite IH. change (join sep (x :: z :: l)) with (x ++ sep ++ join sep (z :: l)).
  rewrite <- !app_assoc. reflexivity.
Qed.

Lemma encode_pairs_snoc (d : dict) (kv : str * pyval) :
  encode_pairs (d ++ [kv])
  = rbind (encode_pairs d) (fun l => rbind (encode_pair kv) (fun x => Ok (l ++ [x]))).
Proof.
  induction d as [| a d IH].
  - cbn [app encode_pairs rbind]. destruct (encode_pair kv); reflexivity.
  - cbn [app encode_pairs]. destruct (encode_pair a); [| reflexivity].
    cbn [rbind]. rewrite IH. destruct (encode_pairs d); [| reflexivity].
    cbn [rbind]. destruct (encode_pair kv); reflexivity.
Qed.

(** The query string of a dictionary with one more entry at the end. *)
Lemma urlencode_snoc (a : str * pyval) (d : dict) (kv : str * pyval) :
  urlencode ((a :: d) ++ [kv])
  = rbind (urlencode (a :: d)) (fun q =>
    rbind (encode_pair kv) (fun x => Ok (q ++ lit "&" ++ x))).
Proof.
  unfold urlencode. rewrite encode_pairs_snoc.
  destruct (encode_pairs (a :: d)) as [l | e] eqn:E; [| reflexivity].
  cbn [rbind]. destruct (encode_pair kv) as [x | e]; [| reflexivity].
  cbn [rbind]. destruct l as [| y l].
  - cbn [encode_pairs] in E. destruct (encode_pair a); [| discriminate].
    destruct (encode_pairs d); discriminate.
  - rewrite join_snoc. reflexivity.
Qed.

Lemma nonce_pair (n : Z) :
  encode_pair (lit "nonce", PyStr (str_of_int n)) = Ok (lit "nonce=" ++ str_of_int n).
Proof.
  unfold encode_pair. cbn [fst snd py_str].
  rewrite (quote_plus_safe (str_of_int n) (str_of_int_safe n)).
  reflexivity.
Qed.

(** ** One call, step by step *)

Lemma skipn_exact {A} (l r : list A) : skipn (length l) (l ++ r) = r.
Proof. induction l as [| x l IH]; [reflexivity | exact IH]. Qed.

Lemma _make_signature_run (nonce payload endpoint : str) (w : world) :
  _make_signature nonce payload endpoint w
  = match Spec.sign (secret_key (self w)) nonce payload endpoint with
    | Ok sig => (Ok sig, log (Sign nonce payload endpoint sig) w)
    | Raise e => (Raise e, w)
    end.
Proof.
  unfold _make_signature, Spec.sign, bind, lift, attr, emit, ret.
  destruct (encode (nonce ++ payload)) as [b1 | e]; [| reflexivity].
  destruct (encode endpoint) as [b2 | e]; [| reflexivity].
  destruct (encode (secret_key (self w))) as [b3 | e]; [| reflexivity].
  cbn [rbind]. rewrite decode_b64encode. reflexivity.
Qed.

Lemma _send_request_run (endpoint : str) (d : dict) (w : world) :
  _send_request endpoint d w
  = let nonce := nonce_at w in
    let w1 := log (Now (clock w (trace w))) w in
    match urlencode (setitem d (lit "nonce") (PyStr nonce)) with
    | Raise e => (Raise e, w1)
    | Ok payload =>
        match Spec.sign (secret_key (self w)) nonce payload endpoint with
        | Raise e => (Raise e, w1)
        | Ok sig =>
            let w2 := log (Sign nonce payload endpoint sig) w1 in
            let req := request_of w endpoint nonce payload sig in
            let ans := network w (trace w2) req in
            (classified ans, log (Post req ans) w2)
        end
    end.
Proof.
  unfold _send_request, _get_nonce, _prepare_headers, _generate_url.
  unfold bind at 1. unfold bind at 1. unfold datetime_now, ret.
  change (str_of_int (Binary64.to_int (epochStr (clock w (trace w)))))
    with (nonce_at w).
  set (nonce := nonce_at w).
  set (w1 := log (Now (clock w (trace w))) w).
  unfold bind at 1. unfold lift at 1.
  destruct (urlencode (setitem d (lit "nonce") (PyStr nonce))) as [payload | e];
    [| reflexivity].
  unfold bind at 1. unfold bind at 1. rewrite _make_signature_run.
  change (secret_key (self w1)) with (secret_key (self w)).
  destruct (Spec.sign (secret_key (self w)) nonce payload endpoint) as [sig | e];
    [| reflexivity].
  unfold bind, attr, ret, requests_post, raise, lift, classified, request_of.
  subst w1. cbn [self log network trace].
  match goal with |- context [network w ?t ?r] => destruct (network w t r) as [r' | e] end;
    [| reflexivity].
  destruct (negb (status_code r' =? HTTPStatus_OK)); reflexivity.
Qed.

Lemma run_gate (c : call) (w : world) :
  run c w
  = if accepted c then _send_request (endpoint_of c) (fields_of c w) w
    else (Raise (AttributeError
                   (lit "Currency not supported. Please use any from this list: "
                    ++ repr_list SUPPORTED_CURRENCIES)), w).
Proof.
  destruct c as [| amount currency recipient account details]; [reflexivity |].
  cbn [run accepted]. unfold send_money.
  destruct (existsb (str_eqb currency) SUPPORTED_CURRENCIES); reflexivity.
Qed.

Lemma fields_have_no_nonce (c : call) (w : world) :
  getitem (fields_of c w) (lit "nonce") = None.
Proof. destruct c; reflexivity. Qed.

(** The dictionary [_send_request] encodes: the operation's fields, then
    the nonce. *)
Lemma run_dict (c : call) (w : world) (v : pyval) :
  setitem (fields_of c w) (lit "nonce") v = fields_of c w ++ [(lit "nonce", v)].
Proof. apply setitem_new, fields_have_no_nonce. Qed.

(** A call, in full. *)
Lemma run_steps (c : call) (w : world) :
  run c w
  = let nonce := nonce_at w in
    let w1 := log (Now (clock w (trace w))) w in
    if accepted c then
      match urlencode (fields_of c w ++ [(lit "nonce", PyStr nonce)]) with
      | Raise e => (Raise e, w1)
      | Ok payload =>
          match Spec.sign (secret_key (self w)) nonce payload (endpoint_of c) with
          | Raise e => (Raise e, w1)
          | Ok sig =>
              let w2 := log (Sign nonce payload (endpoint_of c) sig) w1 in
              let req := request_of w (endpoint_of c) nonce payload sig in
              let ans := network w (trace w2) req in
              (classified ans, log (Post req ans) w2)
          end
      end
    else (Raise (AttributeError
                   (lit "Currency not supported. Please use any from this list: "
                    ++ repr_list SUPPORTED_CURRENCIES)), w).
Proof.
  rewrite run_gate. destruct (accepted c); [| reflexivity].
  rewrite _send_request_run. cbv zeta. rewrite run_dict. reflexivity.
Qed.

(** What a call leaves in the trace when it posts a request. *)
Lemma post_inv (c : call) (w : world) (req : request) (ans : result response) :
  In (Post req ans) (events c w) ->
  exists payload sig,
    accepted c = true
    /\ urlencode (fields_of c w ++ [(lit "nonce", PyStr (nonce_at w))]) = Ok payload
    /\ Spec.sign (secret_key (self w)) (nonce_at w) payload (endpoint_of c) = Ok sig
    /\ req = request_of w (endpoint_of c) (nonce_at w) payload sig
    /\ events c w = [Now (clock w (trace w));
                     Sign (nonce_at w) payload (endpoint_of c) sig;
                     Post req ans]
    /\ fst (run c w) = classified ans.
Proof.
  unfold events. rewrite run_steps. cbv zeta.
  destruct (accepted c).
  2: { cbn [snd]. rewrite <- (app_nil_r (trace w)) at 2. rewrite skipn_exact.
       intros []. }
  destruct (urlencode _) as [payload | e] eqn:Eu.
  2: { cbn [snd log trace]. rewrite skipn_exact.
       intros [H | []]. discriminate. }
  destruct (Spec.sign _ _ _ _) as [sig | e] eqn:Es.
  2: { cbn [snd log trace]. rewrite skipn_exact.
       intros [H | []]. discriminate. }
  cbn [snd fst log trace]. rewrite <- !app_assoc. cbn [app]. rewrite skipn_exact.
  intros [H | [H | [H | []]]]; try discriminate.
  injection H as <- <-.
  exists payload, sig. repeat split; assumption || reflexivity.
Qed.

(** A call changes nothing of the world but the trace, which grows. *)
Lemma run_frame (c : call) (w : world) :
  let w' := snd (run c w) in
  self w' = self w /\ clock w' = clock w /\ network w' = network w
  /\ exists evs, trace w' = trace w ++ evs.
Proof.
  rewrite run_steps. cbv zeta.
  destruct (accepted c).
  2: { cbn [snd]. repeat split. exists []. rewrite app_nil_r. reflexivity. }
  destruct (urlencode _) as [payload | e].
  2: { cbn [snd log self clock network trace]. repeat split. eexists. reflexivity. }
  destruct (Spec.sign _ _ _ _) as [sig | e].
  2: { cbn [snd log self clock network trace]. repeat split. eexists. reflexivity. }
  cbn [snd log self clock network trace]. repeat split.
  eexists. rewrite <- !app_assoc. reflexivity.
Qed.

(** ** Rounding to 53 bits *)

Local Open Scope Q_scope.

Lemma pow2_pos k : 0 < Binary64.pow2 k.
Proof. apply Qpower_0_lt. reflexivity. Qed.

Lemma pow2_le a b : (a <= b)%Z -> Binary64.pow2 a <= Binary64.pow2 b.
Proof. intros. apply Qpower_le_compat_l; [assumption | discriminate]. Qed.

Lemma pow2_lt_inv a b : Binary64.pow2 a < Binary64.pow2 b -> (a < b)%Z.
Proof. intros. apply (Qpower_lt_compat_l_inv 2); [assumption | reflexivity]. Qed.

Lemma pow2_plus a b : Binary64.pow2 (a + b) == Binary64.pow2 a * Binary64.pow2 b.
Proof. apply Qpower_plus. discriminate. Qed.

Lemma pow2_Z n : (0 <= n)%Z -> Binary64.pow2 n == inject_Z (2 ^ n).
Proof. intros. unfold Binary64.pow2. rewrite Zpower_Qpower by assumption. reflexivity. Qed.

Lemma ilog2_lower x : 0 < x -> Binary64.pow2 (Binary64.ilog2 x) <= x.
Proof.
  intros Hx. unfold Binary64.ilog2.
  destruct (Qle_bool _ x) eqn:E.
  - apply Qle_bool_iff. exact E.
  - clear E.
    assert (Hn : (0 < Qnum x)%Z) by (unfold Qlt in Hx; simpl in Hx; lia).
    pose proof (Z.log2_spec _ Hn) as [Hl _].
    pose proof (Z.log2_spec (Z.pos (Qden x)) (Pos2Z.is_pos _)) as [_ Hd].
    pose proof (Z.log2_nonneg (Qnum x)). pose proof (Z.log2_nonneg (Z.pos (Qden x))).
    set (a := Z.log2 (Qnum x)) in *. set (b := Z.log2 (Z.pos (Qden x))) in *.
    replace (a - b - 1)%Z with (a + - (b + 1))%Z by ring.
    rewrite pow2_plus. unfold Binary64.pow2 at 2. rewrite Qpower_opp.
    fold (Binary64.pow2 (b + 1)). rewrite !pow2_Z by lia.
    replace (Z.succ b) with (b + 1)%Z in Hd by lia.
    assert (0 < 2 ^ (b + 1))%Z by (apply Z.pow_pos_nonneg; lia).
    assert (0 < 2 ^ a)%Z by (apply Z.pow_pos_nonneg; lia).
    generalize dependent (2 ^ (b + 1))%Z. generalize dependent (2 ^ a)%Z.
    intros A HA1 HA2 Bb HB1 HB2. clear a b H H0.
    destruct x as [n d]. cbn [Qnum Qden] in *.
    destruct Bb as [|pb|pb]; try lia.
    unfold Qle, Qmult, Qinv, inject_Z. cbn [Qnum Qden]. nia.
Qed.

Lemma rne_spec x : Qabs (inject_Z (Binary64.rne x) - x) <= 1 # 2.
Proof.
  unfold Binary64.rne.
  pose proof (Qfloor_le x) as Hlo. pose proof (Qlt_floor x) as Hhi.
  rewrite inject_Z_plus in Hhi. change (inject_Z 1) with 1 in Hhi.
  set (f := Qfloor x) in *.
  apply Qabs_Qle_condition.
  destruct (Qcompare (x - inject_Z f) (1 # 2)) eqn:E.
  - apply Qeq_alt in E.
    destruct (Z.even f); [| rewrite inject_Z_plus; change (inject_Z 1) with 1]; lra.
  - apply Qlt_alt in E. lra.
  - apply Qgt_alt in E. rewrite inject_Z_plus. change (inject_Z 1) with 1. lra.
Qed.

Lemma rne_int x n : x == inject_Z n -> Binary64.rne x = n.
Proof.
  intros Hx. pose proof (rne_spec x) as H.
  apply Qabs_Qle_condition in H. destruct H as [H1 H2].
  assert (A : inject_Z (Binary64.rne x) < inject_Z (n + 1)).
  { rewrite inject_Z_plus. change (inject_Z 1) with 1. lra. }
  assert (C : inject_Z (n - 1) < inject_Z (Binary64.rne x)).
  { unfold Z.sub. rewrite inject_Z_plus. change (inject_Z (- (1))) with (- (1)). lra. }
  rewrite <- Zlt_Qlt in A, C. lia.
Qed.

Lemma round_zero x : x == 0 -> Binary64.round x = 0.
Proof.
  intros H. unfold Binary64.round.
  destruct (Qeq_bool x 0) eqn:E; [reflexivity |].
  apply Qeq_bool_neq in E. contradiction.
Qed.

Lemma round_nonzero x :
  ~ x == 0 ->
  Binary64.round x == inject_Z (Binary64.rne (x / Binary64.pow2 (Binary64.ilog2 (Qabs x) - 52)))
               * Binary64.pow2 (Binary64.ilog2 (Qabs x) - 52).
Proof.
  intros H. unfold Binary64.round.
  destruct (Qeq_bool x 0) eqn:E.
  - apply Qeq_bool_iff in E. contradiction.
  - apply Qred_correct.
Qed.

Lemma ilog2_below x k : ~ x == 0 -> Qabs x < Binary64.pow2 k -> (Binary64.ilog2 (Qabs x) < k)%Z.
Proof.
  intros Hx Hk. apply pow2_lt_inv.
  eapply Qle_lt_trans; [apply ilog2_lower | exact Hk].
  revert Hx. apply Qabs_case; intros; lra.
Qed.

(** Rounding moves a number below [2^k] by at most half a unit in the
    last place, [2^(k-54)]. *)
Lemma round_error x k : Qabs x < Binary64.pow2 k -> Qabs (Binary64.round x - x) <= Binary64.pow2 (k - 54).
Proof.
  intros Hk.
  destruct (Qeq_dec x 0) as [Hz | Hnz].
  - rewrite (round_zero x Hz). rewrite Hz.
    apply Qlt_le_weak. apply pow2_pos.
  - rewrite (round_nonzero x Hnz).
    pose proof (ilog2_below x k Hnz Hk) as Hl.
    set (e := (Binary64.ilog2 (Qabs x) - 52)%Z) in *.
    pose proof (pow2_pos e) as He.
    pose proof (rne_spec (x / Binary64.pow2 e)) as Hr.
    assert (Heq : inject_Z (Binary64.rne (x / Binary64.pow2 e)) * Binary64.pow2 e - x
                  == (inject_Z (Binary64.rne (x / Binary64.pow2 e)) - x / Binary64.pow2 e) * Binary64.pow2 e).
    { field. lra. }
    rewrite Heq, Qabs_Qmult, (Qabs_pos (Binary64.pow2 e)) by lra.
    apply Qle_trans with ((1 # 2) * Binary64.pow2 e).
    + apply Qmult_le_compat_r; [exact Hr | lra].
    + apply Qle_trans with (Binary64.pow2 (-1) * Binary64.pow2 e); [apply Qle_refl |].
      rewrite <- pow2_plus. apply pow2_le. lia.
Qed.

(** An integer of at most 53 bits is a binary64 number. *)
Lemma round_exact x n : x == inject_Z n -> (Z.abs n < 2 ^ 53)%Z -> Binary64.round x == inject_Z n.
Proof.
  intros Hx Hn.
  destruct (Qeq_dec x 0) as [Hz | Hnz].
  - rewrite (round_zero x Hz). rewrite <- Hx. symmetry. exact Hz.
  - rewrite (round_nonzero x Hnz).
    assert (Hk : Qabs x < Binary64.pow2 53).
    { rewrite Hx. rewrite pow2_Z by lia.
      apply Qabs_case; intros _; [| rewrite <- inject_Z_opp];
        rewrite <- Zlt_Qlt; lia. }
    pose proof (ilog2_below x 53 Hnz Hk) as Hl.
    set (e := (Binary64.ilog2 (Qabs x) - 52)%Z) in *.
    pose proof (pow2_pos e) as He.
    assert (Hm : x / Binary64.pow2 e == inject_Z (n * 2 ^ (- e))).
    { rewrite inject_Z_mult, <- pow2_Z by lia.
      rewrite Hx. unfold Binary64.pow2. rewrite Qpower_opp. field.
      fold (Binary64.pow2 e). lra. }
    rewrite (rne_int _ _ Hm).
    rewrite inject_Z_mult, <- pow2_Z by lia.
    rewrite <- Qmult_assoc, <- pow2_plus.
    replace (- e + e)%Z with 0%Z by ring. unfold Binary64.pow2. simpl. ring.
Qed.


(** [int(x)] is within one of [x], on the side of zero. *)
Lemma to_int_bounds (x : Q) :
  (0 <= x -> inject_Z (Binary64.to_int x) <= x < inject_Z (Binary64.to_int x) + 1)
  /\ (x < 0 -> x <= inject_Z (Binary64.to_int x) < x + 1).
Proof.
  unfold Binary64.to_int, truncate. split; intros H.
  - destruct (Qle_bool 0 x) eqn:E.
    + pose proof (Qfloor_le x). pose proof (Qlt_floor x) as L.
      rewrite inject_Z_plus in L. change (inject_Z 1) with 1 in L. split; assumption.
    + exfalso. apply Qle_bool_iff in H. congruence.
  - destruct (Qle_bool 0 x) eqn:E.
    + apply Qle_bool_iff in E. lra.
    + pose proof (Qle_ceiling x). pose proof (Qceiling_lt x) as L.
      unfold Z.sub in L. rewrite inject_Z_plus in L.
      change (inject_Z (- (1))) with (- (1)) in L. split; [assumption | lra].
Qed.

Lemma inject_Z_bounds (n lo hi : Z) :
  (lo <= n <= hi)%Z -> inject_Z lo <= inject_Z n <= inject_Z hi.
Proof. intros [H1 H2]. split; rewrite <- Zle_Qle; assumption. Qed.

(** Within the range, [epochStr] is less than three and a quarter away
    from the exact count of ticks. *)
Lemma epochStr_close (t : datetime) :
  in_range_instant t -> Qabs (epochStr t - inject_Z (ticks t)) <= 13 # 4.
Proof.
  intros [Hs Hus]. unfold epochStr, ticks.
  unfold Binary64.mul, Binary64.add, Binary64.div, Binary64.of_int.
  set (s := mktime_timetuple t) in *. set (us := microsecond t) in *.
  assert (Hk : Binary64.round (inject_Z 10000) == 10000).
  { rewrite (round_exact (inject_Z 10000) 10000); [| reflexivity | reflexivity].
    reflexivity. }
  set (k := Binary64.round (inject_Z 10000)) in *.
  assert (Ha : Binary64.round (inject_Z s) == inject_Z s).
  { apply round_exact; [reflexivity | lia]. }
  set (a := Binary64.round (inject_Z s)) in *.
  assert (Hb : Binary64.round (a * 1000) == inject_Z (s * 1000)).
  { apply round_exact; [| lia]. rewrite Ha, inject_Z_mult. reflexivity. }
  set (b := Binary64.round (a * 1000)) in *.
  assert (Hu : Binary64.round (inject_Z us) == inject_Z us).
  { apply round_exact; [reflexivity | lia]. }
  set (u := Binary64.round (inject_Z us)) in *.
  pose proof (inject_Z_bounds s 0 2147483647 ltac:(lia)) as Hsq.
  pose proof (inject_Z_bounds us 0 999999 ltac:(lia)) as Huq.
  change (inject_Z 0) with 0 in Hsq, Huq.
  change (inject_Z 2147483647) with 2147483647 in Hsq.
  change (inject_Z 999999) with 999999 in Huq.
  rewrite inject_Z_mult in Hb. change (inject_Z 1000) with 1000 in Hb.
  assert (Huo : u / 1000 == inject_Z us * (1 # 1000)) by (rewrite Hu; field).
  set (q := u / 1000) in *.
  assert (Hc : Qabs (Binary64.round q - q) <= Binary64.pow2 (10 - 54)).
  { apply round_error. apply Qabs_Qlt_condition.
    change (Binary64.pow2 10) with 1024. lra. }
  set (c := Binary64.round q) in *.
  apply Qabs_Qle_condition in Hc.
  change (Binary64.pow2 (10 - 54)) with (1 # 17592186044416) in Hc.
  assert (Hd : Qabs (Binary64.round (b + c) - (b + c)) <= Binary64.pow2 (41 - 54)).
  { apply round_error. apply Qabs_Qlt_condition.
    change (Binary64.pow2 41) with 2199023255552. lra. }
  set (d := Binary64.round (b + c)) in *.
  apply Qabs_Qle_condition in Hd. change (Binary64.pow2 (41 - 54)) with (1 # 8192) in Hd.
  assert (Hdk : d * k == d * 10000) by (rewrite Hk; reflexivity).
  set (p := d * k) in *.
  assert (He : Qabs (Binary64.round p - p) <= Binary64.pow2 (55 - 54)).
  { apply round_error. apply Qabs_Qlt_condition.
    change (Binary64.pow2 55) with 36028797018963968. lra. }
  set (e := Binary64.round p) in *.
  apply Qabs_Qle_condition in He. change (Binary64.pow2 (55 - 54)) with 2 in He.
  apply Qabs_Qle_condition.
  rewrite inject_Z_plus, !inject_Z_mult.
  change (inject_Z 10000000) with 10000000. change (inject_Z 10) with 10.
  lra.
Qed.

(** The integer of the nonce is at most four below and three above the
    exact count. *)
Lemma nonce_int_close (t : datetime) :
  in_range_instant t -> (ticks t - 4 <= nonce_int t <= ticks t + 3)%Z.
Proof.
  intros Ht. pose proof (epochStr_close t Ht) as H.
  apply Qabs_Qle_condition in H. unfold nonce_int.
  assert (T0 : (0 <= ticks t)%Z) by (destruct Ht; unfold ticks; lia).
  pose proof (inject_Z_bounds (ticks t) 0 (ticks t) ltac:(lia)) as [T1 _].
  change (inject_Z 0) with 0 in T1.
  destruct (to_int_bounds (epochStr t)) as [P N].
  set (x := epochStr t) in *. set (n := Binary64.to_int x) in *.
  assert (A : inject_Z (ticks t - 5) < inject_Z n /\ inject_Z n < inject_Z (ticks t + 4)).
  { unfold Z.sub. rewrite !inject_Z_plus.
    change (inject_Z (- (5))) with (- (5)). change (inject_Z 4) with 4.
    destruct (Qlt_le_dec x 0) as [Hneg | Hpos].
    - specialize (N Hneg). lra.
    - specialize (P Hpos). lra. }
  destruct A as [A1 A2]. rewrite <- Zlt_Qlt in A1, A2. lia.
Qed.


Local Close Scope Q_scope.

(** ** The size of a digest *)

Lemma to_be_length (n : nat) (x : Z) : length (SHA2.to_be n x) = n.
Proof.
  revert x. induction n as [| n IH]; intros x; [reflexivity |].
  cbn [SHA2.to_be]. rewrite length_app, IH. cbn [length]. lia.
Qed.

Lemma round_length (p : SHA2.params) (v : list Z) (kw : Z * Z) :
  length (SHA2.round p v kw) = length v.
Proof.
  unfold SHA2.round.
  do 9 (destruct v as [| ? v]; [reflexivity |]). reflexivity.
Qed.

Lemma rounds_length (p : SHA2.params) (kws : list (Z * Z)) (v : list Z) :
  length (fold_left (SHA2.round p) kws v) = length v.
Proof.
  revert v. induction kws as [| kw kws IH]; intros v; [reflexivity |].
  cbn [fold_left]. rewrite IH. apply round_length.
Qed.

Lemma compress_length (p : SHA2.params) (h : list Z) (block : bytes) :
  length (SHA2.compress p h block) = length h.
Proof.
  unfold SHA2.compress. rewrite length_map, length_combine, rounds_length. lia.
Qed.

Lemma digest_length (p : SHA2.params) (msg : bytes) :
  length (SHA2.digest p msg) = (length (SHA2.H0 p) * SHA2.wbytes p)%nat.
Proof.
  unfold SHA2.digest.
  set (blocks := SHA2.chunks _ _ _).
  assert (H : length (fold_left (SHA2.compress p) blocks (SHA2.H0 p))
              = length (SHA2.H0 p)).
  { generalize (SHA2.H0 p). induction blocks as [| b bs IH]; intros h; [reflexivity |].
    cbn [fold_left]. rewrite IH. apply compress_length. }
  rewrite <- H. generalize (fold_left (SHA2.compress p) blocks (SHA2.H0 p)).
  intros l. induction l as [| x l IH]; [reflexivity |].
  cbn [flat_map length]. rewrite length_app, to_be_length, IH. lia.
Qed.

(** A SHA-256 digest is 32 octets, a SHA-512 digest 64. *)
Lemma sha256_length (msg : bytes) : length (sha256 msg) = 32%nat.
Proof. unfold sha256. rewrite digest_length. reflexivity. Qed.

Lemma sha512_length (msg : bytes) : length (sha512 msg) = 64%nat.
Proof. unfold sha512. rewrite digest_length. reflexivity. Qed.
(** ** Telling one microsecond from the next *)

Local Open Scope Q_scope.






















Local Close Scope Q_scope.

(** ** The signature *)

(** C1: for every secret key, nonce, encoded payload and endpoint, the
    signature [_make_signature] returns is the one section 4.2 of the
    specification describes: the base64 text of the HMAC-SHA512, keyed
    with the UTF-8 bytes of the secret key, of the UTF-8 bytes of the
    endpoint followed by the SHA-256 digest of the UTF-8 bytes of the
    nonce and the payload put together.  A string with no UTF-8 form
    makes both raise [UnicodeEncodeError]. *)
Theorem signature_is_spec (nonce payload endpoint : str) (w : world) :
  fst (_make_signature nonce payload endpoint w)
  = Spec.sign (secret_key (self w)) nonce payload endpoint
  /\ forall key endpoint_bytes inner : bytes,
       encode (secret_key (self w)) = Ok key ->
       encode endpoint = Ok endpoint_bytes ->
       encode (nonce ++ payload) = Ok inner ->
       fst (_make_signature nonce payload endpoint w)
       = Ok (b64encode (hmac_new key (endpoint_bytes ++ sha256 inner) hashlib_sha512))
       /\ length (sha256 inner) = 32%nat.
Proof.
  rewrite _make_signature_run.
  assert (E : fst match Spec.sign (secret_key (self w)) nonce payload endpoint with
                  | Ok sig => (Ok sig, log (Sign nonce payload endpoint sig) w)
                  | Raise e => (Raise e, w)
                  end
              = Spec.sign (secret_key (self w)) nonce payload endpoint).
  { destruct (Spec.sign _ _ _ _); reflexivity. }
  split; [exact E |].
  intros key endpoint_bytes inner Hk He Hi. rewrite E.
  unfold Spec.sign. rewrite Hi, He, Hk. cbn [rbind].
  split; [apply decode_b64encode | apply sha256_length].
Qed.

(** C7: the signature depends on nothing but the secret key, the nonce,
    the payload and the endpoint: two clients in two worlds (other
    keys, other clocks, other networks, other histories) that share the
    secret key get the same signature, or the same exception. *)
Theorem signature_deterministic (nonce payload endpoint : str) (w1 w2 : world) :
  secret_key (self w1) = secret_key (self w2) ->
  fst (_make_signature nonce payload endpoint w1)
  = fst (_make_signature nonce payload endpoint w2).
Proof.
  intros H. rewrite !_make_signature_run, H.
  destruct (Spec.sign _ _ _ _); reflexivity.
Qed.

(** ** The request *)

(** C2: whenever [get_balance] or [send_money] posts a request, the
    signature the call computed was computed over the very string sent
    as the body, that signature is the one in the [X-API-SIGN] header,
    and the string is the one form-encoding of the operation's fields
    followed by the nonce. *)
Theorem signed_payload_is_body (c : call) (w : world) (req : request)
    (ans : result response) :
  In (Post req ans) (events c w) ->
  exists nonce sig,
    events c w = [Now (clock w (trace w));
                  Sign nonce (data req) (endpoint_of c) sig;
                  Post req ans]
    /\ getitem (headers req) (lit "X-API-SIGN") = Some sig
    /\ urlencode (fields_of c w ++ [(lit "nonce", PyStr nonce)]) = Ok (data req)
    /\ fst (_make_signature nonce (data req) (endpoint_of c) w) = Ok sig.
Proof.
  intros H. destruct (post_inv c w req ans H) as (payload & sig & _ & Hu & Hs & -> & He & _).
  exists (nonce_at w), sig. cbn [data headers request_of].
  repeat split; try assumption.
  rewrite _make_signature_run, Hs. reflexivity.
Qed.

(** C10: in every request posted, the dictionary that is encoded is
    the operation's fields with the nonce added after them, so the body
    ends with [&nonce=] and the nonce; the [X-API-NONCE] header holds
    that same string, and so does the signature computed. *)
Theorem nonce_last_and_shared (c : call) (w : world) (req : request)
    (ans : result response) :
  In (Post req ans) (events c w) ->
  exists nonce fields_text sig,
    setitem (fields_of c w) (lit "nonce") (PyStr nonce)
    = fields_of c w ++ [(lit "nonce", PyStr nonce)]
    /\ urlencode (fields_of c w) = Ok fields_text
    /\ data req = fields_text ++ lit "&nonce=" ++ nonce
    /\ getitem (headers req) (lit "X-API-NONCE") = Some nonce
    /\ In (Sign nonce (data req) (endpoint_of c) sig) (events c w).
Proof.
  intros H. destruct (post_inv c w req ans H) as (payload & sig & _ & Hu & _ & -> & He & _).
  exists (nonce_at w), (match urlencode (fields_of c w) with Ok q => q | Raise _ => [] end), sig.
  cbn [data headers request_of].
  split; [apply run_dict |].
  assert (F : exists a d, fields_of c w = a :: d) by (destruct c; eexists; eexists; reflexivity).
  destruct F as (a & d & F). rewrite F in Hu |- *.
  rewrite urlencode_snoc in Hu. unfold nonce_at in Hu at 1. rewrite nonce_pair in Hu.
  destruct (urlencode (a :: d)) as [q | e]; [| discriminate].
  cbn [rbind] in Hu. injection Hu as <-.
  repeat split.
  - rewrite He. right. left. reflexivity.
Qed.

(** ** The response *)

(** C3: whenever the transport answers a call with a response, a status
    of 200 makes the call return what [json.loads] makes of the body
    (its value, or its exception), and any other status makes the call
    raise a [PaymentException] and return no value. *)
Theorem response_classified (c : call) (w : world) (req : request) (r : response) :
  In (Post req (Ok r)) (events c w) ->
  (status_code r = 200 -> fst (run c w) = json_loads (text r))
  /\ (status_code r <> 200 ->
      (exists msg, fst (run c w) = Raise (PaymentException msg))
      /\ forall v, fst (run c w) <> Ok v).
Proof.
  intros H. destruct (post_inv c w req (Ok r) H) as (_ & _ & _ & _ & _ & _ & _ & ->).
  unfold classified, HTTPStatus_OK. split; intros Hs.
  - rewrite Hs. reflexivity.
  - destruct (Z.eqb_spec (status_code r) 200) as [E | _]; [contradiction |].
    cbn [negb]. split; [eexists; reflexivity | discriminate].
Qed.

(** C4, as the code has it: for every response with a status other than
    200 the call raises a [PaymentException] whose message is the text
    [MisterTango error: ] followed by the body of the response. *)
Theorem payment_error_message (c : call) (w : world) (req : request) (r : response) :
  In (Post req (Ok r)) (events c w) ->
  status_code r <> 200 ->
  fst (run c w) = Raise (PaymentException (lit "MisterTango error: " ++ text r)).
Proof.
  intros H Hs. destruct (post_inv c w req (Ok r) H) as (_ & _ & _ & _ & _ & _ & _ & ->).
  unfold classified, HTTPStatus_OK.
  destruct (Z.eqb_spec (status_code r) 200) as [E | _]; [contradiction | reflexivity].
Qed.


(** ** The currency check *)

(** ** The username *)


(** C8, as the code has it: the username goes through [urlencode] with
    every other field, and never through [_convert_username].  In the
    body each [@] is [%40], letters, digits and [_.-~] stand as they
    are, a space is a plus sign and any other character is the [%XX]
    of each octet of its UTF-8 form; a username of never-quoted
    characters and [@] signs alone comes out as [_convert_username]
    would give it. *)
Theorem username_form_encoded (c : call) (w : world) (req : request)
    (ans : result response) :
  In (Post req ans) (events c w) ->
  exists tail,
    urlencode (tl (fields_of c w) ++ [(lit "nonce", PyStr (nonce_at w))]) = Ok tail
    /\ data req = lit "username=" ++ flat_map form_char (username (self w))
                  ++ lit "&" ++ tail
    /\ form_char 64 = lit "%40"
    /\ (forall ch, always_safe ch = true -> form_char ch = [ch])
    /\ (Forall (fun ch => ch = 64 \/ always_safe ch = true) (username (self w)) ->
        flat_map form_char (username (self w))
        = _convert_username (username (self w))).
Proof.
  intros H. destruct (post_inv c w req ans H) as (payload & sig & _ & Hu & _ & -> & _ & _).
  cbn [data request_of].
  assert (F : fields_of c w
              = (lit "username", PyStr (username (self w))) :: tl (fields_of c w))
    by (destruct c; reflexivity).
  rewrite F in Hu. unfold urlencode in Hu. cbn [app encode_pairs] in Hu.
  unfold encode_pair at 1 in Hu. cbn [fst snd py_str] in Hu.
  change (quote_plus (lit "username")) with (Ok (lit "username")) in Hu.
  cbn [rbind] in Hu. rewrite quote_plus_chars in Hu.
  destruct (encode (username (self w))) as [ub | e]; [| discriminate].
  cbn [rbind] in Hu.
  destruct (encode_pairs (tl (fields_of c w) ++ [(lit "nonce", PyStr (nonce_at w))]))
    as [l | e] eqn:El; [| discriminate].
  cbn [rbind] in Hu. injection Hu as <-.
  exists (join (lit "&") l).
  split; [unfold urlencode; rewrite El; reflexivity |].
  split.
  { destruct l as [| x l].
    - destruct (tl (fields_of c w)) as [| a d]; cbn [app encode_pairs] in El.
      + destruct (encode_pair _); discriminate.
      + destruct (encode_pair a); [| discriminate].
        destruct (encode_pairs _); discriminate.
    - change (join (lit "&") ((lit "username" ++ lit "=" ++ flat_map form_char (username (self w))) :: x :: l))
        with ((lit "username" ++ lit "=" ++ flat_map form_char (username (self w)))
              ++ lit "&" ++ join (lit "&") (x :: l)).
      change (lit "username=") with (lit "username" ++ lit "=").
      rewrite <- !app_assoc. reflexivity. }
  split; [reflexivity |].
  split; [apply form_char_safe |].
  apply form_chars_convert.
Qed.

(** ** The client object *)

Lemma run_all_self (cs : list call) (w : world) : self (run_all cs w) = self w.
Proof.
  revert w. induction cs as [| c cs IH]; intros w; [reflexivity |].
  cbn [run_all]. rewrite IH. apply run_frame.
Qed.

(** C9: no call, and no sequence of calls, succeeding or failing,
    changes the client object: after them [api_key], [secret_key],
    [username] and [api_url] are what [__init__] set them to. *)
Theorem client_never_mutated (key secret user : str) (base : option str)
    (cs : list call) (w0 : world) :
  let w := snd (__init__ key secret user base w0) in
  (forall c, self (snd (run c w)) = self w)
  /\ self (run_all cs w) = self w
  /\ api_key (self (run_all cs w)) = key
  /\ secret_key (self (run_all cs w)) = secret
  /\ username (self (run_all cs w)) = user
  /\ api_url (self (run_all cs w))
     = match base with
       | Some (ch :: u) => ch :: u
       | _ => DEFAULT_BASE_URL
       end.
Proof.
  intros w. split; [intros c; apply run_frame |].
  rewrite run_all_self. repeat split.
Qed.

(** ** The nonce *)



(** ** Every way a call can end *)

Lemma encode_pair_raises (kv : str * pyval) (e : exn) :
  encode_pair kv = Raise e -> e = UnicodeEncodeError.
Proof.
  unfold encode_pair. rewrite !quote_plus_chars.
  destruct (encode (fst kv)) as [b | e1] eqn:E1; cbn [rbind].
  - destruct (encode (py_str (snd kv))) as [b' | e2] eqn:E2; cbn [rbind];
      [discriminate |].
    intros H. injection H as <-. exact (encode_raises _ _ E2).
  - intros H. injection H as <-. exact (encode_raises _ _ E1).
Qed.

Lemma urlencode_raises (d : dict) (e : exn) :
  urlencode d = Raise e -> e = UnicodeEncodeError.
Proof.
  unfold urlencode.
  assert (A : forall d e, encode_pairs d = Raise e -> e = UnicodeEncodeError).
  { clear. induction d as [| kv d IH]; intros e; [discriminate |].
    cbn [encode_pairs]. destruct (encode_pair kv) as [x | e1] eqn:E1; cbn [rbind].
    - destruct (encode_pairs d) as [l | e2]; cbn [rbind]; [discriminate |].
      intros H. injection H as <-. apply IH. reflexivity.
    - intros H. injection H as <-. exact (encode_pair_raises _ _ E1). }
  destruct (encode_pairs d) as [l | e1] eqn:E; cbn [rbind]; [discriminate |].
  intros H. injection H as <-. exact (A _ _ E).
Qed.

Lemma sign_raises (secret nonce payload endpoint : str) (e : exn) :
  Spec.sign secret nonce payload endpoint = Raise e -> e = UnicodeEncodeError.
Proof.
  unfold Spec.sign.
  destruct (encode (nonce ++ payload)) as [b1 | e1] eqn:E1; cbn [rbind].
  2: { intros H. injection H as <-. exact (encode_raises _ _ E1). }
  destruct (encode endpoint) as [b2 | e2] eqn:E2; cbn [rbind].
  2: { intros H. injection H as <-. exact (encode_raises _ _ E2). }
  destruct (encode secret) as [b3 | e3] eqn:E3; cbn [rbind].
  2: { intros H. injection H as <-. exact (encode_raises _ _ E3). }
  rewrite decode_b64encode. discriminate.
Qed.

(** The events of a call, by the steps of [run_steps]. *)
Lemma events_steps (c : call) (w : world) :
  events c w
  = if accepted c then
      match urlencode (fields_of c w ++ [(lit "nonce", PyStr (nonce_at w))]) with
      | Raise _ => [Now (clock w (trace w))]
      | Ok payload =>
          match Spec.sign (secret_key (self w)) (nonce_at w) payload (endpoint_of c) with
          | Raise _ => [Now (clock w (trace w))]
          | Ok sig =>
              let req := request_of w (endpoint_of c) (nonce_at w) payload sig in
              [Now (clock w (trace w));
               Sign (nonce_at w) payload (endpoint_of c) sig;
               Post req (network w (trace w ++ [Now (clock w (trace w));
                                                Sign (nonce_at w) payload (endpoint_of c) sig])
                           req)]
          end
      end
    else [].
Proof.
  unfold events. rewrite run_steps. cbv zeta.
  destruct (accepted c).
  2: { cbn [snd]. rewrite <- (app_nil_r (trace w)) at 2. apply skipn_exact. }
  destruct (urlencode _) as [payload | e].
  2: { cbn [snd log trace]. apply skipn_exact. }
  destruct (Spec.sign _ _ _ _) as [sig | e].
  2: { cbn [snd log trace]. apply skipn_exact. }
  cbn [snd log trace]. rewrite <- !app_assoc. cbn [app]. apply skipn_exact.
Qed.

(** X1: a call ends in one of three ways.  It is refused for its
    currency, with [AttributeError] and no event at all; or a string of
    it has no UTF-8 form, and it raises [UnicodeEncodeError] having only
    read the clock; or it reads the clock, signs, posts one request, and
    its result is the classification of what the transport gave. *)
Theorem call_outcomes (c : call) (w : world) :
  (accepted c = false
   /\ (exists msg, fst (run c w) = Raise (AttributeError msg))
   /\ events c w = [])
  \/ (accepted c = true
      /\ fst (run c w) = Raise UnicodeEncodeError
      /\ events c w = [Now (clock w (trace w))])
  \/ (accepted c = true
      /\ exists req sig ans,
           events c w = [Now (clock w (trace w));
                         Sign (nonce_at w) (data req) (endpoint_of c) sig;
                         Post req ans]
           /\ fst (run c w) = classified ans).
Proof.
  rewrite events_steps, run_steps. cbv zeta.
  destruct (accepted c).
  2: { left. repeat split. eexists. reflexivity. }
  right.
  destruct (urlencode _) as [payload | e] eqn:Eu.
  2: { left. apply urlencode_raises in Eu. subst e. repeat split. }
  destruct (Spec.sign _ _ _ _) as [sig | e] eqn:Es.
  2: { left. apply sign_raises in Es. subst e. repeat split. }
  right. split; [reflexivity |].
  exists (request_of w (endpoint_of c) (nonce_at w) payload sig), sig.
  eexists. split; [reflexivity |].
  cbn [fst log trace]. rewrite <- app_assoc. reflexivity.
Qed.

(** ** The body is form-encoded text *)

Lemma lor_octet (a b : Z) : octet a -> octet b -> octet (Z.lor a b).
Proof.
  unfold octet. intros Ha Hb.
  assert (N : 0 <= Z.lor a b) by (apply Z.lor_nonneg; lia).
  split; [exact N |].
  destruct (Z.eq_dec (Z.lor a b) 0) as [-> | Hz]; [lia |].
  change 256 with (2 ^ 8). apply Z.log2_lt_pow2; [lia |].
  rewrite Z.log2_lor by lia.
  assert (La : Z.log2 a < 8).
  { destruct (Z.eq_dec a 0) as [-> | ?]; [reflexivity |].
    apply Z.log2_lt_pow2; lia. }
  assert (Lb : Z.log2 b < 8).
  { destruct (Z.eq_dec b 0) as [-> | ?]; [reflexivity |].
    apply Z.log2_lt_pow2; lia. }
  lia.
Qed.

Lemma cont_octet (x : Z) : octet (cont x).
Proof.
  unfold cont. apply lor_octet; [unfold octet; lia |].
  change 0x3F with (Z.ones 6). rewrite Z.land_ones by lia.
  unfold octet. pose proof (Z.mod_pos_bound x (2 ^ 6) ltac:(lia)). lia.
Qed.

Lemma lead_octet (m c n bound : Z) :
  octet m -> 0 <= n -> 0 <= c < bound * 2 ^ n -> 0 < bound <= 256 ->
  octet (Z.lor m (Z.shiftr c n)).
Proof.
  intros Hm Hn Hc Hb. apply lor_octet; [exact Hm |].
  rewrite Z.shiftr_div_pow2 by lia. unfold octet.
  assert (P : 0 < 2 ^ n) by (apply Z.pow_pos_nonneg; lia).
  split; [apply Z.div_pos; lia |].
  apply Z.lt_le_trans with bound; [| lia].
  apply Z.div_lt_upper_bound; lia.
Qed.

(** What [str.encode()] produces are octets. *)
Lemma encode_char_octets (c : Z) (bs : bytes) :
  encode_char c = Some bs -> Forall octet bs.
Proof.
  unfold encode_char. intros H.
  destruct (Z.ltb_spec c 0); [discriminate |].
  destruct (Z.ltb_spec c 0x80).
  { injection H as <-. repeat constructor; lia. }
  destruct (Z.ltb_spec c 0x800).
  { assert (E : [Z.lor 0xC0 (Z.shiftr c 6); cont c] = bs) by congruence.
    rewrite <- E. repeat apply Forall_cons; try apply Forall_nil; try apply cont_octet.
    apply (lead_octet _ _ _ 32); unfold octet; lia. }
  destruct (is_surrogate c); [discriminate |].
  destruct (Z.ltb_spec c 0x10000).
  { assert (E : [Z.lor 0xE0 (Z.shiftr c 12); cont (Z.shiftr c 6); cont c] = bs)
      by congruence.
    rewrite <- E. repeat apply Forall_cons; try apply Forall_nil; try apply cont_octet.
    apply (lead_octet _ _ _ 16); unfold octet; lia. }
  destruct (Z.ltb_spec c 0x110000); [| discriminate].
  assert (E : [Z.lor 0xF0 (Z.shiftr c 18); cont (Z.shiftr c 12);
               cont (Z.shiftr c 6); cont c] = bs) by congruence.
  rewrite <- E. repeat apply Forall_cons; try apply Forall_nil; try apply cont_octet.
  apply (lead_octet _ _ _ 8); unfold octet; lia.
Qed.

Lemma hex_digit_body (n : Z) : 0 <= n < 16 -> body_char (nth (Z.to_nat n) HEX 0) = true.
Proof.
  intros H. assert (L : (Z.to_nat n < 16)%nat) by lia.
  revert L. generalize (Z.to_nat n). intros k L.
  do 16 (destruct k as [| k]; [reflexivity |]). lia.
Qed.

Lemma percent_body (b : Z) : octet b -> body_text (percent b).
Proof.
  unfold octet. intros H. unfold percent.
  repeat apply Forall_cons; try apply Forall_nil.
  - reflexivity.
  - apply hex_digit_body. rewrite Z.shiftr_div_pow2 by lia.
    change (2 ^ 4) with 16. split; [apply Z.div_pos; lia |].
    apply Z.div_lt_upper_bound; lia.
  - apply hex_digit_body. change 15 with (Z.ones 4). rewrite Z.land_ones by lia.
    apply Z.mod_pos_bound. reflexivity.
Qed.

Lemma body_text_app (a b : str) : body_text a -> body_text b -> body_text (a ++ b).
Proof. intros Ha Hb. apply Forall_app. split; assumption. Qed.

Lemma form_char_body (c : Z) : body_text (form_char c).
Proof.
  unfold form_char.
  destruct (c =? space); [repeat constructor |].
  destruct (always_safe c) eqn:E.
  { apply Forall_cons; [| apply Forall_nil]. unfold body_char. rewrite E. reflexivity. }
  destruct (encode_char c) as [bs |] eqn:Ec; [| apply Forall_nil].
  apply encode_char_octets in Ec.
  induction Ec as [| b bs Hb _ IH]; [apply Forall_nil |].
  cbn [flat_map]. apply body_text_app; [apply percent_body; exact Hb | exact IH].
Qed.

Lemma form_body (s : str) : body_text (form s).
Proof.
  unfold form. induction s as [| c s IH]; [apply Forall_nil |].
  cbn [flat_map]. apply body_text_app; [apply form_char_body | exact IH].
Qed.

Lemma quote_plus_form (s q : str) : quote_plus s = Ok q -> q = form s.
Proof.
  rewrite quote_plus_chars. unfold form. destruct (encode s); cbn [rbind]; congruence.
Qed.

Lemma encode_pair_body (kv : str * pyval) (x : str) :
  encode_pair kv = Ok x -> body_text x.
Proof.
  unfold encode_pair.
  destruct (quote_plus (fst kv)) as [k |] eqn:Ek; cbn [rbind]; [| discriminate].
  destruct (quote_plus (py_str (snd kv))) as [v |] eqn:Ev; cbn [rbind]; [| discriminate].
  intros H. injection H as <-.
  apply quote_plus_form in Ek, Ev. subst k v.
  apply body_text_app; [apply form_body |].
  apply (body_text_app (lit "=")); [repeat constructor | apply form_body].
Qed.

Lemma join_body (l : list str) :
  Forall body_text l -> body_text (join (lit "&") l).
Proof.
  induction 1 as [| x l Hx Hl IH]; [apply Forall_nil |].
  destruct l as [| y l]; [exact Hx |].
  change (join (lit "&") (x :: y :: l)) with (x ++ lit "&" ++ join (lit "&") (y :: l)).
  apply body_text_app; [exact Hx |].
  apply (body_text_app (lit "&")); [repeat constructor | exact IH].
Qed.

Lemma encode_pairs_body (d : dict) (l : list str) :
  encode_pairs d = Ok l -> Forall body_text l.
Proof.
  revert l. induction d as [| kv d IH]; intros l.
  - intros H. injection H as <-. apply Forall_nil.
  - cbn [encode_pairs].
    destruct (encode_pair kv) as [x |] eqn:Ex; cbn [rbind]; [| discriminate].
    destruct (encode_pairs d) as [l' |]; cbn [rbind]; [| discriminate].
    intros H. injection H as <-.
    apply Forall_cons; [exact (encode_pair_body _ _ Ex) | apply IH; reflexivity].
Qed.

(** Whatever the dictionary, what [urlencode] returns is made of
    never-quoted characters and [%], [+], [=], [&]. *)
Lemma urlencode_body (d : dict) (q : str) : urlencode d = Ok q -> body_text q.
Proof.
  unfold urlencode. destruct (encode_pairs d) as [l |] eqn:E; cbn [rbind]; [| discriminate].
  intros H. injection H as <-. apply join_body. exact (encode_pairs_body _ _ E).
Qed.

Lemma body_char_ascii (ch : Z) : body_char ch = true -> 0 <= ch < 128.
Proof.
  unfold body_char. intros H. apply orb_true_iff in H as [H | H].
  - apply always_safe_ascii in H. lia.
  - unfold contains in H. change (lit "%+=&") with [37; 43; 61; 38] in H.
    cbn [existsb] in H. rewrite !orb_true_iff, !Z.eqb_eq in H. intuition lia.
Qed.

Lemma body_text_encodable (s : str) : body_text s -> encode s = Ok s.
Proof.
  intros H. apply encode_ascii. revert H. apply Forall_impl.
  intros ch. apply body_char_ascii.
Qed.

(** X2: the body of every request posted holds nothing but letters,
    digits, [_.-~] and [%], [+], [=], [&], whatever the username and the
    fields are: it is ASCII text, and its UTF-8 bytes are its
    characters. *)
Theorem body_is_form_text (c : call) (w : world) (req : request)
    (ans : result response) :
  In (Post req ans) (events c w) ->
  Forall (fun ch => body_char ch = true) (data req)
  /\ encode (data req) = Ok (data req).
Proof.
  intros H. destruct (post_inv c w req ans H) as (payload & sig & _ & Hu & _ & -> & _).
  cbn [data request_of]. apply urlencode_body in Hu.
  split; [exact Hu | apply body_text_encodable; exact Hu].
Qed.

(** ** The body, field by field *)

Lemma form_safe (s : str) : safe_text s -> form s = s.
Proof.
  unfold form. induction 1 as [| c s Hc _ IH]; [reflexivity |].
  cbn [flat_map]. rewrite (form_char_safe c Hc), IH. reflexivity.
Qed.

Lemma encode_pair_form (kv : str * pyval) :
  safe_text (fst kv) ->
  encode_pair kv = rbind (encode (py_str (snd kv))) (fun _ => Ok (pair_text kv)).
Proof.
  intros Hk. unfold encode_pair, pair_text.
  rewrite (quote_plus_safe _ Hk). cbn [rbind]. rewrite quote_plus_chars.
  destruct (encode (py_str (snd kv))); reflexivity.
Qed.

Lemma encode_pairs_forms (d : dict) (l : list str) :
  Forall (fun kv => safe_text (fst kv)) d ->
  encode_pairs d = Ok l -> l = map pair_text d.
Proof.
  intros Hd. revert l. induction Hd as [| kv d Hk _ IH]; intros l.
  - intros H. injection H as <-. reflexivity.
  - cbn [encode_pairs]. rewrite (encode_pair_form kv Hk).
    destruct (encode (py_str (snd kv))); cbn [rbind]; [| discriminate].
    destruct (encode_pairs d) as [l' |]; cbn [rbind]; [| discriminate].
    intros H. injection H as <-. cbn [map]. rewrite (IH l' eq_refl). reflexivity.
Qed.

Lemma encode_pairs_ok (d : dict) :
  Forall (fun kv => safe_text (fst kv)) d ->
  Forall (fun kv => encodable (py_str (snd kv))) d ->
  encode_pairs d = Ok (map pair_text d).
Proof.
  intros Hk. induction Hk as [| kv d Hkv _ IH]; intros Hv; [reflexivity |].
  inversion Hv as [| ? ? [bs Hb] Hrest]; subst.
  cbn [encode_pairs map]. rewrite (encode_pair_form kv Hkv), Hb. cbn [rbind].
  rewrite (IH Hrest). reflexivity.
Qed.

Lemma keys_safe (c : call) (w : world) (v : pyval) :
  Forall (fun kv => safe_text (fst kv)) (fields_of c w ++ [(lit "nonce", v)]).
Proof.
  destruct c; cbn [fields_of app];
    repeat (apply Forall_cons; [cbn [fst]; repeat constructor |]); apply Forall_nil.
Qed.

Lemma accepted_currency (amount : pyval) (currency recipient account details : str) :
  accepted (SendMoney amount currency recipient account details) = true ->
  currency = lit "EUR".
Proof.
  cbn [accepted SUPPORTED_CURRENCIES existsb]. rewrite orb_false_r.
  apply str_eqb_eq.
Qed.

(** The query string of an accepted call, once its pairs are encoded. *)
Lemma joined_pairs_wire (c : call) (w : world) :
  accepted c = true ->
  join (lit "&")
    (map pair_text (fields_of c w ++ [(lit "nonce", PyStr (nonce_at w))]))
  = wire c w.
Proof.
  intros Ha.
  assert (N : form (nonce_at w) = nonce_at w) by apply form_safe, str_of_int_safe.
  destruct c as [| amount currency recipient account details].
  - cbn [fields_of app map join pair_text fst snd py_str wire]. rewrite N.
    change (lit "username=") with (lit "username" ++ lit "=").
    change (lit "&nonce=") with (lit "&" ++ lit "nonce" ++ lit "=").
    rewrite <- !app_assoc. reflexivity.
  - apply accepted_currency in Ha. subst currency.
    cbn [fields_of app map join pair_text fst snd py_str wire]. rewrite N.
    change (form (lit "EUR")) with (lit "EUR").
    change (lit "username=") with (lit "username" ++ lit "=").
    change (lit "&amount=") with (lit "&" ++ lit "amount" ++ lit "=").
    change (lit "&currency=EUR") with (lit "&" ++ lit "currency" ++ lit "=" ++ lit "EUR").
    change (lit "&recipient=") with (lit "&" ++ lit "recipient" ++ lit "=").
    change (lit "&account=") with (lit "&" ++ lit "account" ++ lit "=").
    change (lit "&details=") with (lit "&" ++ lit "details" ++ lit "=").
    change (lit "&nonce=") with (lit "&" ++ lit "nonce" ++ lit "=").
    rewrite <- !app_assoc. reflexivity.
Qed.

(** X3: the wire format.  The body of a [get_balance] request is
    [username=U&nonce=N], that of a [send_money] request
    [username=U&amount=A&currency=EUR&recipient=R&account=C&details=D&nonce=N],
    each value form-encoded, in this order; no request is ever posted
    with another currency than [EUR]. *)
Theorem wire_format (c : call) (w : world) (req : request) (ans : result response) :
  In (Post req ans) (events c w) ->
  data req = wire c w
  /\ match c with
     | GetBalance => True
     | SendMoney _ currency _ _ _ => currency = lit "EUR"
     end.
Proof.
  intros H. destruct (post_inv c w req ans H) as (payload & sig & Ha & Hu & _ & -> & _).
  cbn [data request_of]. split.
  - unfold urlencode in Hu.
    destruct (encode_pairs _) as [l |] eqn:El; cbn [rbind] in Hu; [| discriminate].
    injection Hu as <-.
    rewrite (encode_pairs_forms _ _ (keys_safe c w _) El).
    apply joined_pairs_wire. exact Ha.
  - destruct c as [| amount currency recipient account details]; [exact I |].
    apply (accepted_currency _ _ _ _ _ Ha).
Qed.

Lemma endpoint_encodable (c : call) : encode (endpoint_of c) = Ok (endpoint_of c).
Proof. destruct c; reflexivity. Qed.

(** X4: a call with a supported currency whose strings all have a UTF-8
    form (no lone surrogate in the secret key or in a field) always
    reaches the transport: it reads the clock, signs, and posts exactly
    one request, and its result is the classification of the answer. *)
Theorem well_formed_call_posts (c : call) (w : world) :
  accepted c = true ->
  well_formed c w ->
  exists req sig ans,
    events c w = [Now (clock w (trace w));
                  Sign (nonce_at w) (data req) (endpoint_of c) sig;
                  Post req ans]
    /\ data req = wire c w
    /\ fst (run c w) = classified ans.
Proof.
  intros Ha [[key Hk] Hf].
  assert (Hn : encodable (py_str (PyStr (nonce_at w)))).
  { exists (nonce_at w). apply encode_ascii, safe_text_ascii, str_of_int_safe. }
  assert (Hu : urlencode (fields_of c w ++ [(lit "nonce", PyStr (nonce_at w))])
               = Ok (wire c w)).
  { unfold urlencode. rewrite (encode_pairs_ok _ (keys_safe c w _)).
    - cbn [rbind]. rewrite (joined_pairs_wire c w Ha). reflexivity.
    - apply Forall_app. split; [exact Hf |].
      apply Forall_cons; [exact Hn | apply Forall_nil]. }
  assert (Hb : body_text (nonce_at w ++ wire c w)).
  { apply body_text_app; [| exact (urlencode_body _ _ Hu)].
    generalize (str_of_int_safe (nonce_int (clock w (trace w)))).
    apply Forall_impl. intros ch Hc. unfold body_char. rewrite Hc. reflexivity. }
  assert (Hs : exists sig,
             Spec.sign (secret_key (self w)) (nonce_at w) (wire c w) (endpoint_of c)
             = Ok sig).
  { unfold Spec.sign. rewrite (body_text_encodable _ Hb), endpoint_encodable, Hk.
    cbn [rbind]. rewrite decode_b64encode. eexists. reflexivity. }
  destruct Hs as [sig Hs].
  exists (request_of w (endpoint_of c) (nonce_at w) (wire c w) sig), sig.
  eexists. rewrite events_steps, run_steps. cbv zeta. rewrite Ha, Hu, Hs.
  cbn [data request_of fst log trace]. rewrite <- app_assoc.
  repeat split.
Qed.

(** ** Where a request goes and what it carries *)

(** X5: a client built by [__init__], after any calls, posts to its
    base URL (the default one when none, or an empty one, was given)
    followed by the endpoint of the operation, with four headers:
    [X-API-KEY] holding the key it was built with, [X-API-SIGN],
    [X-API-NONCE], and [Content-Type] announcing a form. *)
Theorem request_shape (key secret user : str) (base : option str)
    (cs : list call) (w0 : world) (c : call) (req : request)
    (ans : result response) :
  let w := run_all cs (snd (__init__ key secret user base w0)) in
  In (Post req ans) (events c w) ->
  url req = base_or_default base ++ endpoint_of c
  /\ map fst (headers req) = header_names
  /\ getitem (headers req) (lit "X-API-KEY") = Some key
  /\ getitem (headers req) (lit "Content-Type")
     = Some (lit "application/x-www-form-urlencoded").
Proof.
  intros w H. destruct (post_inv c w req ans H) as (payload & sig & _ & _ & _ & -> & _).
  assert (S : self w = self (snd (__init__ key secret user base w0)))
    by apply run_all_self.
  cbn [url headers request_of]. rewrite S. repeat split.
Qed.

(** X6: when [requests.post] raises, the call raises that very
    exception: it is not caught and not wrapped in a
    [PaymentException]. *)
Theorem transport_exception_unwrapped (c : call) (w : world) (req : request)
    (e : exn) :
  In (Post req (Raise e)) (events c w) -> fst (run c w) = Raise e.
Proof.
  intros H. destruct (post_inv c w req (Raise e) H) as (_ & _ & _ & _ & _ & _ & _ & ->).
  reflexivity.
Qed.

(** ** Sequences of calls *)

Lemma run_trace (c : call) (w : world) :
  trace (snd (run c w)) = trace w ++ events c w.
Proof.
  destruct (run_frame c w) as (_ & _ & _ & evs & E).
  unfold events. rewrite E, skipn_exact. reflexivity.
Qed.

Lemma events_counts (c : call) (w : world) :
  (posts (events c w) <= 1)%nat /\ (readings (events c w) <= 1)%nat.
Proof.
  rewrite events_steps.
  destruct (accepted c); [| split; cbn; lia].
  destruct (urlencode _); [| split; cbn; lia].
  destruct (Spec.sign _ _ _ _); split; cbn; lia.
Qed.

(** X7: there is no retry.  After any sequence of calls the trace holds
    at most one more request, and one more reading of the clock, for
    each call made. *)
Theorem no_retries (cs : list call) (w : world) :
  (posts (trace (run_all cs w)) <= posts (trace w) + length cs)%nat
  /\ (readings (trace (run_all cs w)) <= readings (trace w) + length cs)%nat.
Proof.
  revert w. induction cs as [| c cs IH]; intros w; [cbn [run_all length]; lia |].
  cbn [run_all length]. destruct (IH (snd (run c w))) as [IP IR].
  rewrite run_trace in IP, IR. unfold posts, readings in *.
  rewrite filter_app, length_app in IP, IR.
  destruct (events_counts c w) as [CP CR]. unfold posts, readings in CP, CR. lia.
Qed.

(** ** The nonce from call to call *)

Lemma ord_inj (a b : ascii) : ord a = ord b -> a = b.
Proof.
  unfold ord. intros H. apply N2Z.inj in H.
  rewrite <- (ascii_N_embedding a), <- (ascii_N_embedding b), H. reflexivity.
Qed.

Lemma lit_inj (a b : string) : lit a = lit b -> a = b.
Proof.
  revert b. induction a as [| x a IH]; intros [| y b]; try discriminate;
    [reflexivity |].
  rewrite !lit_cons. intros H. injection H as Hx Hs.
  apply ord_inj in Hx. apply IH in Hs. congruence.
Qed.

Lemma to_int_proper (n : Z) :
  Z.to_int n <> Decimal.Pos Decimal.Nil /\ Z.to_int n <> Decimal.Neg Decimal.Nil.
Proof.
  destruct n as [| p | p]; cbn [Z.to_int]; split; try discriminate;
    intros H; injection H as H; exact (Unsigned.to_uint_nonnil p H).
Qed.

(** Different integers have different decimal texts. *)
Lemma str_of_int_inj (n m : Z) : str_of_int n = str_of_int m -> n = m.
Proof.
  unfold str_of_int. intros H. apply lit_inj in H.
  apply DecimalZ.to_int_inj.
  destruct (to_int_proper n) as [N1 N2], (to_int_proper m) as [M1 M2].
  pose proof (NilZero.isi _ N1 N2) as In.
  pose proof (NilZero.isi _ M1 M2) as Im.
  rewrite H in In. congruence.
Qed.

Lemma some_inj {A} (x y : A) : Some x = Some y -> x = y.
Proof. intros H. injection H as H. exact H. Qed.

(** X8: the nonce of a request is a function of the clock reading and
    of nothing else.  Two calls in a row that read the same instant
    send the same nonce: nothing is remembered from one call to the
    next that would prevent it.  Two calls that read a 31-bit timestamp
    each, the second later than the first, send different nonces. *)
Theorem nonce_follows_clock (c1 c2 : call) (w : world) (req1 req2 : request)
    (ans1 ans2 : result response) :
  let w1 := snd (run c1 w) in
  let t1 := clock w (trace w) in
  let t2 := clock w (trace w1) in
  In (Post req1 ans1) (events c1 w) ->
  In (Post req2 ans2) (events c2 w1) ->
  (t1 = t2 ->
   getitem (headers req2) (lit "X-API-NONCE")
   = getitem (headers req1) (lit "X-API-NONCE"))
  /\ (in_range_instant t1 -> in_range_instant t2 -> earlier t1 t2 ->
      getitem (headers req2) (lit "X-API-NONCE")
      <> getitem (headers req1) (lit "X-API-NONCE")).
Proof.
  intros w1 t1 t2 H1 H2.
  destruct (post_inv c1 w req1 ans1 H1) as (p1 & s1 & _ & _ & _ & -> & _).
  destruct (post_inv c2 w1 req2 ans2 H2) as (p2 & s2 & _ & _ & _ & -> & _).
  cbn [headers request_of getitem].
  change (str_eqb (lit "X-API-KEY") (lit "X-API-NONCE")) with false.
  change (str_eqb (lit "X-API-SIGN") (lit "X-API-NONCE")) with false.
  change (str_eqb (lit "X-API-NONCE") (lit "X-API-NONCE")) with true.
  cbv iota. unfold nonce_at.
  assert (C : clock w1 = clock w) by apply run_frame.
  rewrite C. fold t1 t2. split.
  - intros ->. reflexivity.
  - intros R1 R2 E H. apply some_inj, str_of_int_inj in H.
    pose proof (nonce_int_close t1 R1) as B1.
    pose proof (nonce_int_close t2 R2) as B2.
    destruct R1 as [_ U1], R2 as [_ U2]. unfold ticks in *.
    destruct E as [E | [E1 E2]]; lia.
Qed.

(** ** The text of the nonce *)

Lemma digits_only (d : Decimal.uint) :
  Forall (fun ch => digit ch = true) (lit (NilEmpty.string_of_uint d)).
Proof.
  induction d; cbn [NilEmpty.string_of_uint];
    [apply Forall_nil | rewrite lit_cons; apply Forall_cons; [reflexivity | exact IHd] ..].
Qed.

Lemma positive_text (p : positive) :
  str_of_int (Z.pos p) <> [] /\ Forall (fun ch => digit ch = true) (str_of_int (Z.pos p)).
Proof.
  unfold str_of_int. cbn [Z.to_int NilZero.string_of_int].
  pose proof (Unsigned.to_uint_nonnil p) as N.
  unfold NilZero.string_of_uint.
  destruct (Pos.to_uint p) eqn:E; [contradiction | ..];
    (split; [cbn [NilEmpty.string_of_uint]; rewrite lit_cons; discriminate
            | apply digits_only]).
Qed.

(** X9: at every instant of the 31-bit range but the very first of the
    epoch, the nonce put in the header and in the body is a non-empty
    run of decimal digits: no sign, no point, no exponent. *)
Theorem nonce_is_digits (w : world) :
  let t := clock w (trace w) in
  in_range_instant t ->
  1 <= mktime_timetuple t \/ 1 <= microsecond t ->
  fst (_get_nonce w) = Ok (nonce_at w)
  /\ nonce_at w <> []
  /\ Forall (fun ch => digit ch = true) (nonce_at w).
Proof.
  intros t R P. split; [reflexivity |].
  pose proof (nonce_int_close t R) as B.
  assert (N : 0 < nonce_int t).
  { destruct R as [S U]. unfold ticks in B. lia. }
  unfold nonce_at. fold t.
  destruct (nonce_int t) as [| p | p]; try lia.
  apply positive_text.
Qed.

(** ** The shape of a signature *)

Lemma list_ind3 {A} (P : list A -> Prop) :
  P [] -> (forall a, P [a]) -> (forall a b, P [a; b]) ->
  (forall a b c l, P l -> P (a :: b :: c :: l)) ->
  forall l, P l.
Proof.
  intros H0 H1 H2 H3 l.
  assert (A3 : P l /\ (forall a, P (a :: l)) /\ (forall a b, P (a :: b :: l))).
  { induction l as [| c l (I0 & I1 & I2)].
    - repeat split; auto.
    - split; [apply I1 |]. split; [intros a; apply I2 |].
      intros a b. apply H3. exact I0. }
  apply A3.
Qed.

(** Four characters for every three octets, the last group padded. *)
Lemma b64encode_length (bs : bytes) :
  length (b64encode bs) = (4 * ((length bs + 2) / 3))%nat.
Proof.
  induction bs as [| a | a b | a b c l IH] using list_ind3; try reflexivity.
  cbn [b64encode length]. rewrite IH.
  replace (S (S (S (length l))) + 2)%nat with ((length l + 2) + 1 * 3)%nat by lia.
  rewrite Nat.div_add by lia. lia.
Qed.

Lemma b64encode_padding (bs : bytes) :
  (length bs mod 3 = 1)%nat ->
  exists body, b64encode bs = body ++ [b64_pad; b64_pad].
Proof.
  induction bs as [| a | a b | a b c l IH] using list_ind3.
  - discriminate.
  - intros _. eexists [_; _]. reflexivity.
  - discriminate.
  - cbn [length]. intros H.
    replace (S (S (S (length l)))) with (length l + 1 * 3)%nat in H by lia.
    rewrite Nat.Div0.mod_add in H. destruct (IH H) as [body E].
    cbn [b64encode]. rewrite E. eexists (_ :: _ :: _ :: _ :: body). reflexivity.
Qed.

Lemma b64_char_text (i : Z) : b64_text (b64_char i) = true.
Proof.
  unfold b64_char. generalize (Z.to_nat i). intros n.
  do 64 (destruct n as [| n]; [reflexivity |]).
  destruct n; reflexivity.
Qed.

Lemma b64_pad_text : b64_text b64_pad = true.
Proof. reflexivity. Qed.

Lemma b64encode_text (bs : bytes) : Forall (fun ch => b64_text ch = true) (b64encode bs).
Proof.
  induction bs as [| a | a b | a b c l IH] using list_ind3; cbn [b64encode].
  - apply Forall_nil.
  - repeat first [apply Forall_nil | apply Forall_cons];
      first [exact (b64_char_text _) | exact b64_pad_text].
  - repeat first [apply Forall_nil | apply Forall_cons];
      first [exact (b64_char_text _) | exact b64_pad_text].
  - do 4 (apply Forall_cons; [exact (b64_char_text _) |]). exact IH.
Qed.

Lemma sign_inv (secret nonce payload endpoint sig : str) :
  Spec.sign secret nonce payload endpoint = Ok sig ->
  exists mac, length mac = 64%nat /\ sig = b64encode mac.
Proof.
  unfold Spec.sign.
  destruct (encode (nonce ++ payload)); cbn [rbind]; [| discriminate].
  destruct (encode endpoint); cbn [rbind]; [| discriminate].
  destruct (encode secret); cbn [rbind]; [| discriminate].
  rewrite decode_b64encode. intros H. injection H as <-.
  eexists. split; [| reflexivity].
  unfold hmac_new. cbv zeta. change (hash_digest hashlib_sha512) with sha512.
  apply sha512_length.
Qed.

(** X10: every signature [_make_signature] returns is 88 characters of
    base64 text, the last two of them padding: the 64 octets of an
    HMAC-SHA512, whatever the key and the message. *)
Theorem signature_shape (nonce payload endpoint sig : str) (w : world) :
  fst (_make_signature nonce payload endpoint w) = Ok sig ->
  length sig = 88%nat
  /\ Forall (fun ch => b64_text ch = true) sig
  /\ exists body, sig = body ++ lit "==".
Proof.
  rewrite _make_signature_run. intros H.
  assert (S : Spec.sign (secret_key (self w)) nonce payload endpoint = Ok sig).
  { destruct (Spec.sign _ _ _ _); [exact H | discriminate H]. }
  destruct (sign_inv _ _ _ _ _ S) as (mac & L & ->).
  split; [rewrite b64encode_length, L; reflexivity |].
  split; [apply b64encode_text |].
  apply b64encode_padding. rewrite L. reflexivity.
Qed.

(** ** [_convert_username] *)

Lemma convert_cons (ch : Z) (s : str) :
  _convert_username (ch :: s)
  = (if ch =? 64 then lit "%40" else [ch]) ++ _convert_username s.
Proof. reflexivity. Qed.

(** X11: [_convert_username] leaves no [@] in its result, changes
    nothing exactly in the names that have none, does nothing more when
    applied a second time, and makes the name two characters longer for
    each [@].  No method calls it. *)
Theorem convert_username_facts (s : str) :
  contains 64 (_convert_username s) = false
  /\ (contains 64 s = false <-> _convert_username s = s)
  /\ _convert_username (_convert_username s) = _convert_username s
  /\ length (_convert_username s) = (length s + 2 * count_occ Z.eq_dec s 64%Z)%nat.
Proof.
  assert (A : contains 64 (_convert_username s) = false).
  { induction s as [| ch s IH]; [reflexivity |].
    rewrite convert_cons. unfold contains in *. rewrite existsb_app, IH, orb_false_r.
    destruct (Z.eqb_spec ch 64) as [-> | N]; [reflexivity |].
    cbn [existsb]. destruct (Z.eqb_spec 64 ch); [congruence | reflexivity]. }
  assert (B : forall t, contains 64 t = false -> _convert_username t = t).
  { intros t. induction t as [| ch t IH]; [reflexivity |].
    unfold contains. cbn [existsb]. intros H. apply orb_false_iff in H as [H1 H2].
    rewrite convert_cons, (IH H2), Z.eqb_sym, H1. reflexivity. }
  split; [exact A |]. split; [| split].
  - split; [apply B |]. intros E. rewrite <- E. exact A.
  - apply B. exact A.
  - clear A B. induction s as [| ch s IH]; [reflexivity |].
    rewrite convert_cons, length_app, IH. cbn [count_occ length].
    destruct (Z.eqb_spec ch 64) as [-> | N].
    + destruct (Z.eq_dec 64 64); [| congruence]. change (length (lit "%40")) with 3%nat. lia.
    + destruct (Z.eq_dec ch 64); [congruence |]. cbn [length]. lia.
Qed.
(** ** The currency check, and what follows it *)

(** An accepted call whose strings all have a UTF-8 form gets its body
    and its signature. *)
Lemma well_formed_signs (c : call) (w : world) :
  accepted c = true ->
  well_formed c w ->
  urlencode (fields_of c w ++ [(lit "nonce", PyStr (nonce_at w))]) = Ok (wire c w)
  /\ exists sig,
       Spec.sign (secret_key (self w)) (nonce_at w) (wire c w) (endpoint_of c) = Ok sig.
Proof.
  intros Ha [[key Hk] Hf].
  assert (Hu : urlencode (fields_of c w ++ [(lit "nonce", PyStr (nonce_at w))])
               = Ok (wire c w)).
  { unfold urlencode. rewrite (encode_pairs_ok _ (keys_safe c w _)).
    - cbn [rbind]. rewrite (joined_pairs_wire c w Ha). reflexivity.
    - apply Forall_app. split; [exact Hf |].
      apply Forall_cons; [| apply Forall_nil].
      exists (nonce_at w). apply encode_ascii, safe_text_ascii, str_of_int_safe. }
  split; [exact Hu |].
  assert (Hb : body_text (nonce_at w ++ wire c w)).
  { apply body_text_app; [| exact (urlencode_body _ _ Hu)].
    generalize (str_of_int_safe (nonce_int (clock w (trace w)))).
    apply Forall_impl. intros ch Hc. unfold body_char. rewrite Hc. reflexivity. }
  unfold Spec.sign. rewrite (body_text_encodable _ Hb), endpoint_encodable, Hk.
  cbn [rbind]. rewrite decode_b64encode. eexists. reflexivity.
Qed.

(** C5: [send_money] with a currency outside [SUPPORTED_CURRENCIES]
    raises [AttributeError] and leaves the world as it was: the clock
    is not read, nothing is signed, nothing is posted.  With [EUR] it
    is [_send_request] on [/v1/transaction/sendMoney] with the six
    fields, which starts by reading the clock; and when the strings of
    the call have a UTF-8 form it goes all the way: it signs the body,
    posts one request to the base address followed by
    [/v1/transaction/sendMoney], the body that of the wire format, and
    returns what lines 76 to 79 make of the transport's answer to that
    request.  [AttributeError] is no [PaymentException]. *)
Theorem currency_gate (amount : pyval) (currency recipient account details : str)
    (w : world) :
  (~ In currency SUPPORTED_CURRENCIES ->
   send_money amount currency recipient account details w
   = (Raise (AttributeError
               (lit "Currency not supported. Please use any from this list: "
                ++ repr_list SUPPORTED_CURRENCIES)), w)
   /\ events (SendMoney amount currency recipient account details) w = [])
  /\ (currency = lit "EUR" ->
      send_money amount currency recipient account details w
      = _send_request (lit "/v1/transaction/sendMoney")
          [(lit "username", PyStr (username (self w)));
           (lit "amount", amount);
           (lit "currency", PyStr currency);
           (lit "recipient", PyStr recipient);
           (lit "account", PyStr account);
           (lit "details", PyStr details)] w
      /\ (exists rest,
           events (SendMoney amount currency recipient account details) w
           = Now (clock w (trace w)) :: rest)
      /\ (well_formed (SendMoney amount currency recipient account details) w ->
          exists req sig,
            let signed := [Now (clock w (trace w));
                           Sign (nonce_at w) (data req)
                             (lit "/v1/transaction/sendMoney") sig] in
            let ans := network w (trace w ++ signed) req in
            events (SendMoney amount currency recipient account details) w
            = signed ++ [Post req ans]
            /\ url req = api_url (self w) ++ lit "/v1/transaction/sendMoney"
            /\ data req = wire (SendMoney amount currency recipient account details) w
            /\ getitem (headers req) (lit "X-API-SIGN") = Some sig
            /\ fst (send_money amount currency recipient account details w)
               = classified ans))
  /\ (forall m m', AttributeError m <> PaymentException m').
Proof.
  split; [| split].
  - intros Hn.
    assert (E : existsb (str_eqb currency) SUPPORTED_CURRENCIES = false).
    { destruct (existsb _ _) eqn:E; [| reflexivity].
      apply existsb_exists in E as (x & Hx & Hc).
      apply str_eqb_eq in Hc. subst x. contradiction. }
    unfold events. cbn [run]. unfold send_money. rewrite E. cbn [negb].
    split; [reflexivity |].
    unfold raise. cbn [snd]. rewrite <- (app_nil_r (trace w)) at 2.
    apply skipn_exact.
  - intros ->. split; [reflexivity |].
    set (c := SendMoney amount (lit "EUR") recipient account details).
    assert (Ha : accepted c = true) by reflexivity.
    split.
    + rewrite events_steps, Ha.
      destruct (urlencode _) as [payload | e];
        [destruct (Spec.sign _ _ _ _) as [sig | e] |];
        eexists; reflexivity.
    + intros Hw. destruct (well_formed_signs c w Ha Hw) as (Hu & sig & Hs).
      exists (request_of w (endpoint_of c) (nonce_at w) (wire c w) sig), sig.
      cbv zeta. rewrite events_steps.
      change (send_money amount (lit "EUR") recipient account details w) with (run c w).
      rewrite run_steps. cbv zeta. rewrite Ha, Hu, Hs.
      cbn [data url headers request_of fst log trace app getitem].
      rewrite <- app_assoc.
      change (str_eqb (lit "X-API-KEY") (lit "X-API-SIGN")) with false.
      change (str_eqb (lit "X-API-SIGN") (lit "X-API-SIGN")) with true.
      cbv iota. repeat split.
  - discriminate.
Qed.

End Client.

(** [get_balance] against the mocked transport, start to end. *)
Lemma demo_events :
  events str raw_json GetBalance demo_world
  = [Now demo_instant;
     Sign (lit "17000000000000048") demo_payload (lit "/v1/transaction/getBalance")
       demo_signature;
     Post demo_request (Ok bad_signature)].
Proof. vm_compute. reflexivity. Qed.

Lemma demo_posted :
  In (Post demo_request (Ok bad_signature)) (events str raw_json GetBalance demo_world).
Proof. rewrite demo_events. right. right. left. reflexivity. Qed.

(** [send_money] against a transport that accepts: the body and the
    signature are those [urlencode], [hashlib], [hmac] and [base64] give
    for the same fields. *)
Lemma demo_transfer_run :
  fst (run str raw_json demo_transfer accepting_world) = Ok (lit "{}")
  /\ events str raw_json demo_transfer accepting_world
     = [Now demo_instant;
        Sign (lit "17000000000000048") transfer_payload
          (lit "/v1/transaction/sendMoney") transfer_signature;
        Post {| url := lit "https://api.mistertango.com:8445/v1/transaction/sendMoney";
                headers := [(lit "X-API-KEY", lit "pk-demo");
                            (lit "X-API-SIGN", transfer_signature);
                            (lit "X-API-NONCE", lit "17000000000000048");
                            (lit "Content-Type",
                             lit "application/x-www-form-urlencoded")];
                data := transfer_payload |}
          (Ok {| status_code := 200; text := lit "{}" |})].
Proof. split; vm_compute; reflexivity. Qed.

Lemma demo_refused_currency :
  send_money str raw_json (PyFloat (lit "10.5")) (lit "USD") (lit "Jane Roe")
    (lit "LT601010012345678901") (lit "invoice 7") accepting_world
  = (Raise (AttributeError
              (lit "Currency not supported. Please use any from this list: ['EUR']")),
     accepting_world).
Proof. reflexivity. Qed.

(** ** The theorems at the demo client *)

Lemma signature_is_spec_witness :
  fst (_make_signature (lit "17000000000000048") demo_payload
         (lit "/v1/transaction/getBalance") demo_world)
  = Ok (b64encode
          (hmac_new [115; 51; 99; 114; 195; 169; 116]
             (lit "/v1/transaction/getBalance"
              ++ sha256 (lit "17000000000000048" ++ demo_payload))
             hashlib_sha512))
  /\ length (sha256 (lit "17000000000000048" ++ demo_payload)) = 32%nat.
Proof.
  apply (proj2 (signature_is_spec (lit "17000000000000048") demo_payload
                  (lit "/v1/transaction/getBalance") demo_world));
    reflexivity.
Defined.

Lemma signature_deterministic_witness :
  secret_key (self demo_world) = secret_key (self other_world)
  /\ fst (_make_signature (lit "1") (lit "a=b") (lit "/x") demo_world)
     = fst (_make_signature (lit "1") (lit "a=b") (lit "/x") other_world).
Proof.
  split; [reflexivity |].
  apply (signature_deterministic (lit "1") (lit "a=b") (lit "/x") demo_world other_world).
  reflexivity.
Defined.

Lemma signed_payload_is_body_witness :
  exists nonce sig,
    events str raw_json GetBalance demo_world
    = [Now (clock demo_world (trace demo_world));
       Sign nonce (data demo_request) (endpoint_of GetBalance) sig;
       Post demo_request (Ok bad_signature)]
    /\ getitem (headers demo_request) (lit "X-API-SIGN") = Some sig
    /\ urlencode (fields_of GetBalance demo_world ++ [(lit "nonce", PyStr nonce)])
       = Ok (data demo_request)
    /\ fst (_make_signature nonce (data demo_request) (endpoint_of GetBalance) demo_world)
       = Ok sig.
Proof.
  apply (signed_payload_is_body str raw_json GetBalance demo_world demo_request
           (Ok bad_signature)).
  exact demo_posted.
Defined.

Lemma nonce_last_and_shared_witness :
  exists nonce fields_text sig,
    setitem (fields_of GetBalance demo_world) (lit "nonce") (PyStr nonce)
    = fields_of GetBalance demo_world ++ [(lit "nonce", PyStr nonce)]
    /\ urlencode (fields_of GetBalance demo_world) = Ok fields_text
    /\ data demo_request = fields_text ++ lit "&nonce=" ++ nonce
    /\ getitem (headers demo_request) (lit "X-API-NONCE") = Some nonce
    /\ In (Sign nonce (data demo_request) (endpoint_of GetBalance) sig)
          (events str raw_json GetBalance demo_world).
Proof.
  apply (nonce_last_and_shared str raw_json GetBalance demo_world demo_request
           (Ok bad_signature)).
  exact demo_posted.
Defined.

Lemma response_classified_witness :
  (status_code bad_signature = 200 ->
   fst (run str raw_json GetBalance demo_world) = raw_json (text bad_signature))
  /\ (status_code bad_signature <> 200 ->
      (exists msg, fst (run str raw_json GetBalance demo_world)
                   = Raise (PaymentException msg))
      /\ forall v, fst (run str raw_json GetBalance demo_world) <> Ok v).
Proof.
  apply (response_classified str raw_json GetBalance demo_world demo_request bad_signature).
  exact demo_posted.
Defined.

Lemma payment_error_message_witness :
  fst (run str raw_json GetBalance demo_world)
  = Raise (PaymentException (lit "MisterTango error: " ++ text bad_signature)).
Proof.
  apply (payment_error_message str raw_json GetBalance demo_world demo_request
           bad_signature).
  - exact demo_posted.
  - discriminate.
Defined.

(** C4: against the transport of section 8 the message is
    [MisterTango error: bad signature], not [bad signature]. *)
Lemma message_is_body_counterexample :
  fst (run str raw_json GetBalance demo_world)
  = Raise (PaymentException (lit "MisterTango error: bad signature"))
  /\ ~ message_is_body str raw_json.
Proof.
  split; [vm_compute; reflexivity |].
  intros H.
  specialize (H GetBalance demo_world demo_request bad_signature demo_posted).
  assert (E : fst (run str raw_json GetBalance demo_world)
              = Raise (PaymentException (text bad_signature))).
  { apply H. discriminate. }
  vm_compute in E. discriminate E.
Qed.

Lemma currency_gate_witness :
  (send_money str raw_json (PyFloat (lit "10.5")) (lit "USD") (lit "Jane Roe")
     (lit "LT601010012345678901") (lit "invoice 7") demo_world
   = (Raise (AttributeError
               (lit "Currency not supported. Please use any from this list: "
                ++ repr_list SUPPORTED_CURRENCIES)), demo_world)
   /\ events str raw_json
        (SendMoney (PyFloat (lit "10.5")) (lit "USD") (lit "Jane Roe")
           (lit "LT601010012345678901") (lit "invoice 7")) demo_world = [])
  /\ (exists rest,
        events str raw_json
          (SendMoney (PyFloat (lit "10.5")) (lit "EUR") (lit "Jane Roe")
             (lit "LT601010012345678901") (lit "invoice 7")) demo_world
        = Now demo_instant :: rest)
  /\ well_formed demo_transfer accepting_world
  /\ exists req sig,
       let signed := [Now (clock accepting_world (trace accepting_world));
                      Sign (nonce_at accepting_world) (data req)
                        (lit "/v1/transaction/sendMoney") sig] in
       let ans := network accepting_world (trace accepting_world ++ signed) req in
       events str raw_json demo_transfer accepting_world = signed ++ [Post req ans]
       /\ url req = api_url (self accepting_world) ++ lit "/v1/transaction/sendMoney"
       /\ data req = wire demo_transfer accepting_world
       /\ getitem (headers req) (lit "X-API-SIGN") = Some sig
       /\ fst (send_money str raw_json (PyFloat (lit "10.5")) (lit "EUR") (lit "Jane Roe")
                 (lit "LT601010012345678901") (lit "invoice 7") accepting_world)
          = classified str raw_json ans.
Proof.
  assert (W : well_formed demo_transfer accepting_world).
  { split; [eexists; reflexivity |].
    repeat (apply Forall_cons; [eexists; reflexivity |]). apply Forall_nil. }
  split; [| split; [| split; [exact W |]]].
  - apply (proj1 (currency_gate str raw_json (PyFloat (lit "10.5")) (lit "USD")
                    (lit "Jane Roe") (lit "LT601010012345678901") (lit "invoice 7")
                    demo_world)).
    intros [H | []]. discriminate H.
  - apply (proj1 (proj2 (currency_gate str raw_json (PyFloat (lit "10.5")) (lit "EUR")
                           (lit "Jane Roe") (lit "LT601010012345678901")
                           (lit "invoice 7") demo_world))).
    reflexivity.
  - exact (proj2 (proj2 (proj1 (proj2 (currency_gate str raw_json (PyFloat (lit "10.5"))
                                          (lit "EUR") (lit "Jane Roe")
                                          (lit "LT601010012345678901")
                                          (lit "invoice 7") accepting_world))
                                 eq_refl)) W).
Defined.

Lemma username_form_encoded_witness :
  exists tail,
    urlencode (tl (fields_of GetBalance demo_world)
               ++ [(lit "nonce", PyStr (nonce_at demo_world))]) = Ok tail
    /\ data demo_request
       = lit "username=" ++ flat_map form_char (username (self demo_world))
         ++ lit "&" ++ tail
    /\ form_char 64 = lit "%40"
    /\ (forall ch, always_safe ch = true -> form_char ch = [ch])
    /\ (Forall (fun ch => ch = 64 \/ always_safe ch = true) (username (self demo_world)) ->
        flat_map form_char (username (self demo_world))
        = _convert_username (username (self demo_world))).
Proof.
  apply (username_form_encoded str raw_json GetBalance demo_world demo_request
           (Ok bad_signature)).
  exact demo_posted.
Defined.

(** C8: the plus sign of [john+doe@example.com] is sent as [%2B]; with
    only the [@] replaced the body would hold [john+doe%40example.com]. *)
Lemma only_at_sign_encoded_counterexample :
  data demo_request = lit "username=john%2Bdoe%40example.com&nonce=17000000000000048"
  /\ _convert_username (username (self demo_world)) = lit "john+doe%40example.com"
  /\ ~ only_at_sign_encoded str raw_json.
Proof.
  split; [reflexivity |]. split; [reflexivity |].
  intros H.
  destruct (H GetBalance demo_world demo_request (Ok bad_signature) demo_posted)
    as (tail & Ht & Hd).
  - vm_compute. tauto.
  - vm_compute in Hd. discriminate Hd.
Qed.



(** ** Further properties at the demo client *)

Lemma transfer_posted :
  In (Post transfer_request (Ok {| status_code := 200; text := lit "{}" |}))
     (events str raw_json demo_transfer accepting_world).
Proof. rewrite (proj2 demo_transfer_run). right. right. left. reflexivity. Qed.

Lemma body_is_form_text_witness :
  Forall (fun ch => body_char ch = true) (data transfer_request)
  /\ encode (data transfer_request) = Ok (data transfer_request).
Proof.
  apply (body_is_form_text str raw_json demo_transfer accepting_world transfer_request
           (Ok {| status_code := 200; text := lit "{}" |})).
  exact transfer_posted.
Defined.

Lemma wire_format_witness :
  data transfer_request = wire demo_transfer accepting_world
  /\ lit "EUR" = lit "EUR".
Proof.
  apply (wire_format str raw_json demo_transfer accepting_world transfer_request
           (Ok {| status_code := 200; text := lit "{}" |})).
  exact transfer_posted.
Defined.

Lemma well_formed_call_posts_witness :
  well_formed demo_transfer accepting_world
  /\ exists req sig ans,
       events str raw_json demo_transfer accepting_world
       = [Now (clock accepting_world (trace accepting_world));
          Sign (nonce_at accepting_world) (data req) (endpoint_of demo_transfer) sig;
          Post req ans]
       /\ data req = wire demo_transfer accepting_world
       /\ fst (run str raw_json demo_transfer accepting_world)
          = classified str raw_json ans.
Proof.
  assert (W : well_formed demo_transfer accepting_world).
  { split; [eexists; reflexivity |].
    repeat (apply Forall_cons; [eexists; reflexivity |]). apply Forall_nil. }
  split; [exact W |].
  apply (well_formed_call_posts str raw_json demo_transfer accepting_world);
    [reflexivity | exact W].
Defined.

Lemma request_shape_witness :
  url sandbox_request
  = base_or_default (Some (lit "https://sandbox.example")) ++ endpoint_of GetBalance
  /\ map fst (headers sandbox_request) = header_names
  /\ getitem (headers sandbox_request) (lit "X-API-KEY") = Some (lit "pk-demo")
  /\ getitem (headers sandbox_request) (lit "Content-Type")
     = Some (lit "application/x-www-form-urlencoded").
Proof.
  apply (request_shape str raw_json (lit "pk-demo") (lit "s3cr" ++ [0xE9] ++ lit "t")
           (lit "john+doe@example.com") (Some (lit "https://sandbox.example"))
           [demo_transfer] demo_world GetBalance sandbox_request (Ok bad_signature)).
  vm_compute. right. right. left. reflexivity.
Defined.

Lemma transport_exception_unwrapped_witness :
  fst (run str raw_json GetBalance other_world)
  = Raise (RequestException (lit "connection refused")).
Proof.
  pose (req := match events str raw_json GetBalance other_world with
               | [_; _; Post r _] => r
               | _ => demo_request
               end).
  apply (transport_exception_unwrapped str raw_json GetBalance other_world req
           (RequestException (lit "connection refused"))).
  vm_compute. right. right. left. reflexivity.
Defined.

Lemma nonce_follows_clock_witness :
  exists req1 req2,
    In (Post req1 (Ok {| status_code := 200; text := lit "{}" |}))
       (events str raw_json GetBalance ticking_world)
    /\ In (Post req2 (Ok {| status_code := 200; text := lit "{}" |}))
          (events str raw_json GetBalance (snd (run str raw_json GetBalance ticking_world)))
    /\ getitem (headers req2) (lit "X-API-NONCE")
       <> getitem (headers req1) (lit "X-API-NONCE").
Proof.
  pose (req1 := match events str raw_json GetBalance ticking_world with
                | [_; _; Post r _] => r
                | _ => demo_request
                end).
  pose (req2 := match events str raw_json GetBalance
                        (snd (run str raw_json GetBalance ticking_world)) with
                | [_; _; Post r _] => r
                | _ => demo_request
                end).
  assert (H1 : In (Post req1 (Ok {| status_code := 200; text := lit "{}" |}))
                  (events str raw_json GetBalance ticking_world))
    by (vm_compute; right; right; left; reflexivity).
  assert (H2 : In (Post req2 (Ok {| status_code := 200; text := lit "{}" |}))
                  (events str raw_json GetBalance
                     (snd (run str raw_json GetBalance ticking_world))))
    by (vm_compute; right; right; left; reflexivity).
  exists req1, req2. split; [exact H1 |]. split; [exact H2 |].
  apply (proj2 (nonce_follows_clock str raw_json GetBalance GetBalance ticking_world
                  req1 req2 _ _ H1 H2)).
  - vm_compute. repeat split; first [reflexivity | discriminate].
  - vm_compute. repeat split; first [reflexivity | discriminate].
  - left. vm_compute. reflexivity.
Defined.

Lemma nonce_is_digits_witness :
  in_range_instant demo_instant
  /\ fst (_get_nonce demo_world) = Ok (nonce_at demo_world)
  /\ nonce_at demo_world <> []
  /\ Forall (fun ch => digit ch = true) (nonce_at demo_world).
Proof.
  assert (R : in_range_instant demo_instant) by (vm_compute; intuition discriminate).
  split; [exact R |].
  apply (nonce_is_digits demo_world R). left. vm_compute. discriminate.
Defined.

Lemma signature_shape_witness :
  length demo_signature = 88%nat
  /\ Forall (fun ch => b64_text ch = true) demo_signature
  /\ exists body, demo_signature = body ++ lit "==".
Proof.
  apply (signature_shape (lit "17000000000000048") demo_payload
           (lit "/v1/transaction/getBalance") demo_signature demo_world).
  vm_compute. reflexivity.
Defined.
